(** * Session and room state machine of the Socket.IO signaling server

    Shallow embedding of [src/socketio_server.js], the server with rooms: the
    connection directory [connectionMap], the room registry [roomMembers],
    [disconnectClient], [emitChatEvent], [server.send] and the handlers that
    [onConnection] installs on a socket.

    - A handler is a function in a state monad that also records, in program
      order, what the handler does to the outside world: the packets it
      sends, its acknowledgment, the sockets it closes and the callbacks of
      the owner that it calls.
    - Sockets are shared mutable objects; the state holds their fields [cid]
      and [room] under the identity of the socket.
    - The clock reading [time_bj] and the answer of the authenticator are
      inputs of the handlers.  The lines written to the console are left out;
      the disconnect reason is used for nothing else.
    - The end of a connection, whoever closed it, reaches the server as the
      ['disconnect'] event of the socket: the event [Disconnected] of a
      run. *)

From stdpp Require Import gmap strings list fin_maps.

Open Scope string_scope.
Open Scope list_scope.

#[local] Set Warnings "-register-all".

(** ** JavaScript values *)

(** The values that travel in event payloads and acknowledgments.  An object
    is a finite map from property names to values. *)
Inductive value : Type :=
| VUndefined
| VNull
| VBool (b : bool)
| VNum (n : Z)
| VStr (s : string)
| VArr (l : list value)
| VObj (o : gmap string value).

(** JavaScript truthiness, as tested by [if (v)], [!v] and [v || d]. *)
Definition truthy (v : value) : bool :=
  match v with
  | VUndefined | VNull => false
  | VBool b => b
  | VNum n => negb (n =? 0)%Z
  | VStr s => negb (String.eqb s "")
  | VArr _ | VObj _ => true
  end.

(** [o.k]: reading a property that is absent yields [undefined]. *)
Definition get_prop (o : gmap string value) (k : string) : value :=
  default VUndefined (o !! k).

(** ** Sockets, effects and the server state *)

(** [startServer] creates two Socket.IO servers and hands the sockets of both
    to [onConnection]. *)
Inductive listener : Type := plainServer | secureServer.

#[global] Instance listener_eq_dec : EqDecision listener.
Proof. solve_decision. Defined.

#[global] Instance listener_countable : Countable listener.
Proof.
  refine (inj_countable' (λ l, match l with plainServer => false | secureServer => true end)
            (λ b : bool, if b then secureServer else plainServer) _).
  by intros [].
Defined.

(** A socket object is known by its identity: the server that accepted it
    ([socket.server]) and a connection number.  Several places hold the same
    socket (the directory, the transport, the handler closures), and a write
    to [socket.cid] by one of them is seen by all. *)
Record socket : Type := Socket { server : listener; conn : nat }.

#[global] Instance socket_eq_dec : EqDecision socket.
Proof. solve_decision. Defined.

#[global] Instance socket_countable : Countable socket.
Proof.
  refine (inj_countable' (λ s, (server s, conn s)) (λ p, Socket p.1 p.2) _).
  by intros [].
Defined.

(** What the handlers do to the outside world, in program order. *)
Inductive effect : Type :=
| Emit (s : socket) (eventName : string) (args : list value)
    (* an event packet sent to socket [s] *)
| Ack (s : socket) (args : list value)
    (* [ackCallback(...args)] of the event being handled for socket [s] *)
| Close (s : socket)
    (* [socket.disconnect()] *)
| OnMessage (to : value) (data : gmap string value)
    (* the call [server.onmessage(to, data)] *)
| OnDisconnect (c : string)
    (* the call [server.ondisconnect(cid)] *).

(** The state of one server made by [create], with the module-level
    [roomMembers]. *)
Record State : Type := mkState {
  connectionMap : gmap string socket;
    (* [connectionMap]: cid -> socket *)
  roomMembers : gmap string (list string);
    (* [roomMembers]: room -> Set of cid; a Set is the list of its elements in
       insertion order *)
  socket_cid : gmap socket string;
    (* the field [socket.cid] of every socket; absent is undefined or null *)
  socket_room : gmap socket string;
    (* the field [socket.room] of every socket *)
  adapter : gmap (listener * string) (list socket)
    (* the rooms of each Socket.IO server: the sockets that joined and are
       still connected *)
}.

Definition init : State := mkState ∅ ∅ ∅ ∅ ∅.

Definition set_connectionMap (f : gmap string socket → gmap string socket) (st : State) : State :=
  mkState (f (connectionMap st)) (roomMembers st) (socket_cid st) (socket_room st) (adapter st).

Definition set_roomMembers (f : gmap string (list string) → gmap string (list string)) (st : State) : State :=
  mkState (connectionMap st) (f (roomMembers st)) (socket_cid st) (socket_room st) (adapter st).

Definition set_socket_cid (f : gmap socket string → gmap socket string) (st : State) : State :=
  mkState (connectionMap st) (roomMembers st) (f (socket_cid st)) (socket_room st) (adapter st).

Definition set_socket_room (f : gmap socket string → gmap socket string) (st : State) : State :=
  mkState (connectionMap st) (roomMembers st) (socket_cid st) (f (socket_room st)) (adapter st).

Definition set_adapter (f : gmap (listener * string) (list socket) → gmap (listener * string) (list socket)) (st : State) : State :=
  mkState (connectionMap st) (roomMembers st) (socket_cid st) (socket_room st) (f (adapter st)).

(** ** The handler monad: state passing with a trace of effects *)

Definition M (A : Type) : Type := State → A * State * list effect.

#[global] Instance M_ret : MRet M := λ A a st, (a, st, []).

#[global] Instance M_bind : MBind M := λ A B f m st,
  let '(a, st1, t1) := m st in
  let '(b, st2, t2) := f a st1 in
  (b, st2, t1 ++ t2).

Definition gets {A} (f : State → A) : M A := λ st, (f st, st, []).
Definition modify (f : State → State) : M unit := λ st, ((), f st, []).
Definition tell (e : effect) : M unit := λ st, ((), st, [e]).

Definition result_of {A} (r : A * State * list effect) : A := r.1.1.
Definition state_of {A} (r : A * State * list effect) : State := r.1.2.
Definition trace_of {A} (r : A * State * list effect) : list effect := r.2.

(** ** JavaScript [Set] and [Map] operations *)

(** [set.add(x)]: a Set keeps insertion order and no duplicates. *)
Definition set_add (x : string) (l : list string) : list string :=
  if decide (x ∈ l) then l else l ++ [x].

(** [set.delete(x)] *)
Definition set_delete (x : string) (l : list string) : list string :=
  filter (λ y, y ≠ x) l.

(** [connectionMap.get(k)] for an arbitrary value [k]: the keys of the map are
    cids, which are strings, so any other value is absent. *)
Definition map_get {A} (m : gmap string A) (k : value) : option A :=
  match k with
  | VStr c => m !! c
  | _ => None
  end.

(** The value of the field [socket.cid]. *)
Definition cid_value (o : option string) : value :=
  match o with
  | Some c => VStr c
  | None => VNull
  end.

(** [a || d] for an optional string [a]: the empty string is falsy too. *)
Definition or_else (a : option string) (d : string) : string :=
  match a with
  | Some r => if String.eqb r "" then d else r
  | None => d
  end.

(** ** The transport: what the Socket.IO calls of the handlers do *)

(** [socket.emit(eventName, ...args)] *)
Definition emit (s : socket) (eventName : string) (args : list value) : M unit :=
  tell (Emit s eventName args).

(** The sockets of [s]'s server that are in [room]. *)
Definition sockets_in (s : socket) (room : string) (st : State) : list socket :=
  default [] (adapter st !! (server s, room)).

(** [socket.join(room)] *)
Definition join (s : socket) (room : string) : M unit :=
  modify (λ st, set_adapter
    <[(server s, room) :=
        if decide (s ∈ sockets_in s room st) then sockets_in s room st
        else sockets_in s room st ++ [s]]> st).

(** A socket that is closed, by either side, leaves all its rooms. *)
Definition leave_all (s : socket) : M unit :=
  modify (set_adapter (fmap (filter (λ r, r ≠ s)))).

(** [socket.disconnect()]: the socket is closed and leaves its rooms.
    Socket.IO runs the ['disconnect'] handler of the socket before the call
    returns; here that handler runs as the next event of the run,
    [Disconnected].  The two agree whenever the closed socket has no cid,
    which is so for every close of the handlers but the one of a failed
    handshake on a socket that already carries a cid. *)
Definition disconnect (s : socket) : M unit :=
  tell (Close s);;
  leave_all s.

(** [socket.server.sockets.in(room).emit(eventName, ...args)]: one packet to
    every socket of the server in the room. *)
Definition emit_in (s : socket) (room eventName : string) (args : list value) : M unit :=
  λ st, ((), st, (λ r, Emit r eventName args) <$> sockets_in s room st).

(** [socket.to(room).emit(eventName, ...args)]: the same, the socket itself
    excepted. *)
Definition emit_to (s : socket) (room eventName : string) (args : list value) : M unit :=
  λ st, ((), st,
         (λ r, Emit r eventName args) <$> filter (λ r, r ≠ s) (sockets_in s room st)).

(** ** The server *)

Definition forwardEventName : string := "owt-message".

(** The error thrown by [emitChatEvent]. *)
Record Error : Type := mkError { message : string; code : value }.

(** What [server.onauthentication(server, data.token)] returned. *)
Record AuthResult : Type := mkAuthResult {
  error : value;
  cid : string;
  room : option string
}.

(** The object literals of the handlers. *)
Definition obj (fields : list (string * value)) : value :=
  VObj (list_to_map fields).

Definition strings (l : list string) : value := VArr (VStr <$> l).

#[global] Arguments obj : simpl never.
#[global] Arguments strings : simpl never.

Definition disconnectClient (cid : string) : M unit :=
  connection ← gets (λ st, connectionMap st !! cid);
  match connection with
  | Some connection =>
      emit connection "server-disconnect" [];;
      modify (set_connectionMap (delete cid));;
      modify (set_socket_cid (delete connection));;
      disconnect connection
  | None => mret ()
  end.

(** An async function: it returns [None] when its promise is fulfilled and
    the error when it is rejected. *)
Definition emitChatEvent (targetCid : value) (eventName : string) (message : value)
  : M (option Error) :=
  target ← gets (λ st, map_get (connectionMap st) targetCid);
  match target with
  | Some target =>
      emit target eventName [message];;
      mret None
  | None =>
      mret (Some (mkError "Remote endpoint cannot be reached" (VStr "2201")))
  end.

(** [server.send] *)
Definition send (cid : value) (message : value) : M (option Error) :=
  emitChatEvent cid forwardEventName message.

(** The first lines of [onConnection], before the handlers are installed. *)
Definition onConnection (s : socket) : M unit :=
  c ← gets (λ st, socket_cid st !! s);
  if truthy (cid_value c) then
    let cid := default "" c in
    disconnectClient cid;;
    modify (set_connectionMap <[cid := s]>)
  else mret ().

(** The handler of ['authentication']; [result] is what the authenticator
    answered for [data.token] and [time_bj] the formatted clock reading. *)
Definition onAuthentication (s : socket) (result : AuthResult) (time_bj : string) : M unit :=
  if truthy (error result) then
    tell (Ack s [obj [("error", error result)]]);;
    disconnect s
  else
    let cid := cid result in
    let room := or_else (room result) "default-room" in
    disconnectClient cid;;
    modify (set_socket_cid <[s := cid]>);;
    modify (set_socket_room <[s := room]>);;
    modify (set_connectionMap <[cid := s]>);;
    join s room;;
    has ← gets (λ st, bool_decide (is_Some (roomMembers st !! room)));
    (if negb has then modify (set_roomMembers <[room := []]>) else mret ());;
    modify (set_roomMembers (alter (set_add cid) room));;
    allUsers ← gets (λ st, default [] (roomMembers st !! room));
    let userList := filter (λ uid, uid ≠ cid) allUsers in
    emit s "server-authenticated" [obj [("uid", VStr cid)]];;
    emit_in s room "room-list" [strings allUsers];;
    let joinMsg := obj [("type", VStr "user-joined"); ("cid", VStr cid);
                        ("users", strings userList); ("timestamp", VStr time_bj)] in
    emit_in s room "room-event" [joinMsg];;
    tell (Ack s [obj [("uid", VStr cid); ("room", VStr room)]]).

(** The handler of ['disconnect'].  The reason only selects the line that is
    logged. *)
Definition onDisconnect (s : socket) (reason : string) (time_bj : string) : M unit :=
  c ← gets (λ st, socket_cid st !! s);
  room ← gets (λ st, socket_room st !! s);
  if truthy (cid_value c) then
    let cid := default "" c in
    present ← gets (λ st, bool_decide (is_Some (connectionMap st !! cid)));
    (if present : bool then modify (set_connectionMap (delete cid)) else mret ());;
    has ← gets (λ st, bool_decide (is_Some (roomMembers st !! default "" room)));
    (if truthy (cid_value room) && has then
       let room := default "" room in
       modify (set_roomMembers (alter (set_delete cid) room));;
       members ← gets (λ st, default [] (roomMembers st !! room));
       (if bool_decide (length members = 0) then modify (set_roomMembers (delete room))
        else mret ());;
       emit_to s room "room-event"
         [obj [("type", VStr "user-left"); ("cid", VStr cid);
               ("users", strings members); ("timestamp", VStr time_bj)]]
     else mret ());;
    tell (OnDisconnect cid)
  else mret ().

Section Forward.

(** [server.onmessage], installed by the code that creates the server: it
    returns [None] when its promise is fulfilled, the error when it is
    rejected. *)
Variable onmessage : value → gmap string value → M (option Error).

(** The handler of [forwardEventName]. *)
Definition onForward (s : socket) (data : gmap string value) : M unit :=
  c ← gets (λ st, socket_cid st !! s);
  if negb (truthy (cid_value c)) then
    tell (Ack s [VNum 2120]);;
    disconnect s
  else
    let data := <["from" := cid_value c]> data in
    let to := get_prop data "to" in
    let data := delete "to" data in
    tell (OnMessage to data);;
    outcome ← onmessage to data;
    match outcome with
    | None => tell (Ack s [])
    | Some error => tell (Ack s [code error])
    end.

End Forward.

(** Modelled from the spec: the router callback [server.onmessage], which the
    creator of the server installs and which is not part of this file.  The
    Message Router forwards through the Connection Directory, and [send]
    reuses the same delivery path: the callback routes with [server.send]. *)
Definition onmessage_send (to : value) (data : gmap string value) : M (option Error) :=
  send to (VObj data).

(** ** The server without rooms *)

(** The second server of the source file keeps the directory only.  Its
    [disconnectClient], [emitChatEvent], [server.send], the first lines of its
    [onConnection] and its forward handler are those above; its two other
    handlers are these. *)
Module Plain.

Definition onAuthentication (s : socket) (result : AuthResult) : M unit :=
  if truthy (error result) then
    tell (Ack s [obj [("error", error result)]]);;
    disconnect s
  else
    let cid := cid result in
    disconnectClient cid;;
    modify (set_socket_cid <[s := cid]>);;
    modify (set_connectionMap <[cid := s]>);;
    emit s "server-authenticated" [obj [("uid", VStr cid)]];;
    tell (Ack s [obj [("uid", VStr cid)]]).

Definition onDisconnect (s : socket) (reason : string) : M unit :=
  c ← gets (λ st, socket_cid st !! s);
  if truthy (cid_value c) then
    let cid := default "" c in
    present ← gets (λ st, bool_decide (is_Some (connectionMap st !! cid)));
    (if present : bool then modify (set_connectionMap (delete cid)) else mret ());;
    tell (OnDisconnect cid)
  else mret ().

End Plain.

(** ** Runs of the server *)

(** What can happen to the server: the events of its sockets and the calls of
    its owner. *)
Inductive event : Type :=
| Connection (s : socket)
| Authentication (s : socket) (result : AuthResult) (time_bj : string)
| Disconnected (s : socket) (reason time_bj : string)
| Forwarded (s : socket) (data : gmap string value)
| Send (cid : value) (message : value)
| Evict (cid : string).

(** A socket whose connection ended has left its rooms when its
    ['disconnect'] handler runs. *)
Definition step (ev : event) : M unit :=
  match ev with
  | Connection s => onConnection s
  | Authentication s result time_bj => onAuthentication s result time_bj
  | Disconnected s reason time_bj => leave_all s;; onDisconnect s reason time_bj
  | Forwarded s data => onForward onmessage_send s data
  | Send cid message => send cid message;; mret ()
  | Evict cid => disconnectClient cid
  end.

Fixpoint run (evs : list event) : M unit :=
  match evs with
  | [] => mret ()
  | ev :: evs => step ev;; run evs
  end.

(** The handshake protocol: a socket is new when it connects, and it
    authenticates while it has no cid. *)
Definition permitted (st : State) (ev : event) : Prop :=
  match ev with
  | Connection s | Authentication s _ _ => socket_cid st !! s = None
  | _ => True
  end.

Inductive reachable : State → Prop :=
| reachable_init : reachable init
| reachable_step st ev :
    reachable st → permitted st ev → reachable (state_of (step ev st)).

(** ** Notions used in the statements *)

(** The payload that the forward handler hands to the router when the sender
    has cid [c]: the two assignments of the handler applied to [data]. *)
Definition stamped (c : string) (data : gmap string value) : gmap string value :=
  delete "to" (<["from" := VStr c]> data).

(** The error of an unreachable endpoint. *)
Definition unreachable : Error :=
  mkError "Remote endpoint cannot be reached" (VStr "2201").

(** A scenario: two sockets of the same listener; alice on the first and bob
    on the second join room r1. *)
Definition alice_socket : socket := Socket plainServer 1.
Definition bob_socket : socket := Socket plainServer 2.

Definition accepted (cid room : string) : AuthResult :=
  mkAuthResult VUndefined cid (Some room).

Definition alice_joins : list event :=
  [Connection alice_socket; Authentication alice_socket (accepted "alice" "r1") "t1"].

Definition bob_joins : list event :=
  [Connection bob_socket; Authentication bob_socket (accepted "bob" "r1") "t2"].

Definition st_alice : State := state_of (run alice_joins init).
Definition st_alice_bob : State := state_of (run bob_joins st_alice).

(** The ['room-event'] payload of a join. *)
Definition joinMsg (cid : string) (users : list string) (time_bj : string) : value :=
  obj [("type", VStr "user-joined"); ("cid", VStr cid);
       ("users", strings users); ("timestamp", VStr time_bj)].

(** The state in which a successful handshake of [s] as [cid] in [room]
    leaves the server, [st] being the state after the eviction of the previous
    connection of [cid]. *)
Definition registered (s : socket) (cid room : string) (st : State) : State :=
  set_roomMembers <[room := set_add cid (default [] (roomMembers st !! room))]>
    (state_of (join s room
      (set_connectionMap <[cid := s]>
        (set_socket_room <[s := room]>
          (set_socket_cid <[s := cid]> st))))).

(** The sentence of the specification on the join broadcast, read as it is
    written: every socket of the room receives a ['room-event'] whose [users]
    field is the updated member list of the room, the joiner included. *)
Definition user_joined_lists_members
    (st : State) (s : socket) (result : AuthResult) (time_bj : string) : Prop :=
  let r := onAuthentication s result time_bj st in
  let room := or_else (room result) "default-room" in
  let members := default [] (roomMembers (state_of r) !! room) in
  ∀ peer, peer ∈ sockets_in s room (state_of r) →
    Emit peer "room-event" [joinMsg (cid result) members time_bj] ∈ trace_of r.

(** What the disconnect handler does to the registry for a socket of [room]
    with cid [c]: the room is looked up, [c] is deleted from its members, and
    the entry is deleted when no member is left. *)
Definition leave (room c : string) (m : gmap string (list string))
  : gmap string (list string) :=
  match m !! room with
  | Some members =>
      if bool_decide (length (set_delete c members) = 0) then delete room m
      else <[room := set_delete c members]> m
  | None => m
  end.

(** The same for the value of the field [socket.room]. *)
Definition leave_room (room : option string) (c : string)
    (m : gmap string (list string)) : gmap string (list string) :=
  if truthy (cid_value room) then leave (default "" room) c m else m.

(** The event is a handshake of socket [s]. *)
Definition authenticates (s : socket) (ev : event) : Prop :=
  match ev with
  | Authentication s' _ _ => s' = s
  | _ => False
  end.

(** Every connection of the directory carries the cid it is registered
    under. *)
Definition directory_consistent (st : State) : Prop :=
  ∀ c s, connectionMap st !! c = Some s → socket_cid st !! s = Some c.

(** A list of events each of which is permitted when it happens. *)
Fixpoint permitted_run (st : State) (evs : list event) : Prop :=
  match evs with
  | [] => True
  | ev :: evs => permitted st ev ∧ permitted_run (state_of (step ev st)) evs
  end.

(** Two scenarios of eviction: the owner of the server disconnects alice, and
    alice signs in again, into another room, from a second socket. *)
Definition alice_evicted : list event :=
  alice_joins ++
  [Evict "alice"; Disconnected alice_socket "io server disconnect" "t2"].

Definition alice_moves : list event :=
  alice_joins ++
  [Connection bob_socket; Authentication bob_socket (accepted "alice" "r2") "t2";
   Disconnected alice_socket "io server disconnect" "t2"].

(** No room of the registry is empty. *)
Definition rooms_nonempty (st : State) : Prop :=
  ∀ room members, roomMembers st !! room = Some members → members ≠ [].

(** The acknowledgments of a trace, in order. *)
Definition acks (t : list effect) : list (socket * list value) :=
  omap (λ e, match e with Ack s args => Some (s, args) | _ => None end) t.

(** The cids with which a trace calls [server.ondisconnect]. *)
Definition observed (t : list effect) : list string :=
  omap (λ e, match e with OnDisconnect c => Some c | _ => None end) t.

(** The packets of a trace: receiver, event name and arguments. *)
Definition packets (t : list effect) : list (socket * string * list value) :=
  omap (λ e, match e with Emit s ev args => Some (s, ev, args) | _ => None end) t.

(** The ['room-event'] payload of a departure. *)
Definition leaveMsg (cid : string) (users : list string) (time_bj : string) : value :=
  obj [("type", VStr "user-left"); ("cid", VStr cid);
       ("users", strings users); ("timestamp", VStr time_bj)].

(** A scenario: alice's connection is lost, she signs in again from the second
    socket. *)
Definition alice_returns : list event :=
  alice_joins ++
  [Disconnected alice_socket "transport close" "t2";
   Connection bob_socket; Authentication bob_socket (accepted "alice" "r1") "t3"].

(** Every cid of the directory is a member of the room of its connection. *)
Definition directory_in_rooms (st : State) : Prop :=
  ∀ c s, connectionMap st !! c = Some s →
    ∃ r, socket_room st !! s = Some r ∧ c ∈ default [] (roomMembers st !! r).

(** The sockets of a room of a listener are sockets of that listener. *)
Definition adapter_wf (st : State) : Prop :=
  ∀ l r p, p ∈ default [] (adapter st !! (l, r)) → server p = l.

(** The packets that are not room events. *)
Definition without_room_events (l : list (socket * string * list value))
  : list (socket * string * list value) :=
  filter (λ pk, pk.1.2 ≠ "room-list" ∧ pk.1.2 ≠ "room-event") l.

(** * Properties *)

(** ** Equations of the handlers *)

Ltac unfold_m :=
  unfold mbind, M_bind, mret, M_ret, gets, modify, tell, emit,
    result_of, state_of, trace_of in *.

Lemma truthy_cid_value_true (o : option string) :
  truthy (cid_value o) = true ↔ ∃ c, o = Some c ∧ c ≠ "".
Proof.
  destruct o as [c|]; simpl.
  - rewrite negb_true_iff. split.
    + intros H. exists c. split; [done|]. intros ->. by rewrite String.eqb_refl in H.
    + intros (c' & [= <-] & Hne). by apply String.eqb_neq.
  - split; [done|]. by intros (c & ? & _).
Qed.

Lemma truthy_cid_value_some (c : string) :
  c ≠ "" → truthy (cid_value (Some c)) = true.
Proof. intros Hne. apply truthy_cid_value_true. eauto. Qed.

Lemma disconnectClient_some st c old :
  connectionMap st !! c = Some old →
  disconnectClient c st =
    ((), set_adapter (fmap (filter (λ r, r ≠ old)))
           (set_socket_cid (delete old) (set_connectionMap (delete c) st)),
     [Emit old "server-disconnect" []; Close old]).
Proof.
  intros H. unfold disconnectClient, disconnect, leave_all. unfold_m.
  simpl. by rewrite H.
Qed.

Lemma disconnectClient_none st c :
  connectionMap st !! c = None → disconnectClient c st = ((), st, []).
Proof.
  intros H. unfold disconnectClient. unfold_m. simpl. by rewrite H.
Qed.

Lemma emitChatEvent_some st targetCid eventName msg target :
  map_get (connectionMap st) targetCid = Some target →
  emitChatEvent targetCid eventName msg st = (None, st, [Emit target eventName [msg]]).
Proof.
  intros H. unfold emitChatEvent. unfold_m. simpl. by rewrite H.
Qed.

Lemma emitChatEvent_none st targetCid eventName msg :
  map_get (connectionMap st) targetCid = None →
  emitChatEvent targetCid eventName msg st =
    (Some unreachable, st, []).
Proof.
  intros H. unfold emitChatEvent. unfold_m. simpl. by rewrite H.
Qed.

Lemma onForward_authenticated onmessage st s data c :
  socket_cid st !! s = Some c → c ≠ "" →
  onForward onmessage s data st =
    let '(outcome, st', t) := onmessage (get_prop data "to") (stamped c data) st in
    ((), st',
     OnMessage (get_prop data "to") (stamped c data) :: t ++
     [Ack s match outcome with None => [] | Some error => [code error] end]).
Proof.
  intros Hc Hne. unfold onForward. unfold_m. simpl. rewrite Hc.
  rewrite truthy_cid_value_some by done. simpl.
  assert (get_prop (<["from":=VStr c]> data) "to" = get_prop data "to") as ->.
  { unfold get_prop. by rewrite lookup_insert_ne. }
  fold (stamped c data).
  by destruct (onmessage _ _ st) as [[[e|] st'] t].
Qed.

Lemma onForward_unauthenticated onmessage st s data :
  truthy (cid_value (socket_cid st !! s)) = false →
  onForward onmessage s data st =
    ((), set_adapter (fmap (filter (λ r, r ≠ s))) st, [Ack s [VNum 2120]; Close s]).
Proof.
  intros Hc. unfold onForward, disconnect, leave_all. unfold_m. simpl. by rewrite Hc.
Qed.

Lemma onDisconnect_unauthenticated st s reason time_bj :
  truthy (cid_value (socket_cid st !! s)) = false →
  onDisconnect s reason time_bj st = ((), st, []).
Proof.
  intros Hc. unfold onDisconnect. unfold_m. simpl. by rewrite Hc.
Qed.

(** ** The message router *)

Lemma stamped_to c data : stamped c data !! "to" = None.
Proof. unfold stamped. apply lookup_delete_eq. Qed.

Lemma stamped_from c data : stamped c data !! "from" = Some (VStr c).
Proof. unfold stamped. rewrite lookup_delete_ne by done. apply lookup_insert_eq. Qed.

Lemma stamped_other c data k :
  k ≠ "to" → k ≠ "from" → stamped c data !! k = data !! k.
Proof.
  intros Hto Hfrom. unfold stamped.
  rewrite lookup_delete_ne by done. by rewrite lookup_insert_ne.
Qed.

Lemma onForward_routed st s data c :
  socket_cid st !! s = Some c → c ≠ "" →
  onForward onmessage_send s data st =
    match map_get (connectionMap st) (get_prop data "to") with
    | Some target =>
        ((), st, [OnMessage (get_prop data "to") (stamped c data);
                  Emit target forwardEventName [VObj (stamped c data)];
                  Ack s []])
    | None =>
        ((), st, [OnMessage (get_prop data "to") (stamped c data);
                  Ack s [VStr "2201"]])
    end.
Proof.
  intros Hc Hne. rewrite (onForward_authenticated _ _ _ _ c) by done.
  unfold onmessage_send, send.
  destruct (map_get (connectionMap st) (get_prop data "to")) as [target|] eqn:Hto.
  - by rewrite (emitChatEvent_some _ _ _ _ target).
  - by rewrite emitChatEvent_none.
Qed.

(** C3: a forward-message event from an authenticated connection hands to the
    router a payload whose ['to'] field is removed and whose ['from'] field is
    the cid of the sending connection, whatever ['from'] the sender wrote; the
    other fields are kept, and a reachable recipient receives exactly this
    payload. *)
Theorem forward_stamps_sender st s data c :
  socket_cid st !! s = Some c → c ≠ "" →
  let fwd := stamped c data in
  fwd !! "to" = None
  ∧ fwd !! "from" = Some (VStr c)
  ∧ (∀ k, k ≠ "to" → k ≠ "from" → fwd !! k = data !! k)
  ∧ (∀ onmessage, ∃ rest,
       trace_of (onForward onmessage s data st) =
         OnMessage (get_prop data "to") fwd :: rest)
  ∧ (∀ target, map_get (connectionMap st) (get_prop data "to") = Some target →
       trace_of (onForward onmessage_send s data st) =
         [OnMessage (get_prop data "to") fwd;
          Emit target forwardEventName [VObj fwd]; Ack s []]).
Proof.
  intros Hc Hne fwd. subst fwd.
  split; [apply stamped_to|]. split; [apply stamped_from|].
  split; [intros k; apply stamped_other|]. split.
  - intros onmessage. rewrite (onForward_authenticated _ _ _ _ c) by done.
    destruct (onmessage _ _ st) as [[outcome st'] t]. by eexists.
  - intros target Hto. rewrite (onForward_routed _ _ _ c) by done. by rewrite Hto.
Qed.

(** The scenario of the specification, with a forged sender: alice sends
    [{to: "bob", from: "mallory", text: "hi"}] and bob receives
    [{from: "alice", text: "hi"}]. *)
Lemma forward_stamps_sender_witness :
  socket_cid st_alice_bob !! alice_socket = Some "alice" ∧ "alice" ≠ "" ∧
  trace_of (onForward onmessage_send alice_socket
              (list_to_map [("to", VStr "bob"); ("from", VStr "mallory"); ("text", VStr "hi")])
              st_alice_bob) =
    [OnMessage (VStr "bob") (list_to_map [("from", VStr "alice"); ("text", VStr "hi")]);
     Emit bob_socket "owt-message" [obj [("from", VStr "alice"); ("text", VStr "hi")]];
     Ack alice_socket []].
Proof.
  assert (socket_cid st_alice_bob !! alice_socket = Some "alice") as Hc
    by (vm_compute; reflexivity).
  assert ("alice" ≠ "") as Hne by discriminate.
  split; [exact Hc|]. split; [exact Hne|].
  destruct (forward_stamps_sender st_alice_bob alice_socket
              (list_to_map [("to", VStr "bob"); ("from", VStr "mallory"); ("text", VStr "hi")])
              "alice" Hc Hne)
    as (_ & _ & _ & _ & Hrouted).
  rewrite (Hrouted bob_socket) by (vm_compute; reflexivity).
  vm_compute. reflexivity.
Defined.

(** C4: routing to a cid that is absent from the directory emits no event,
    fails with the unreachable-endpoint error, and the sender of a forwarded
    message is acknowledged with the code 2201 (the string ['2201']); routing
    to a cid that is present emits exactly one event, to that connection, and
    the acknowledgment carries no error.  This holds for [server.send] and
    for the messages that clients forward. *)
Theorem unreachable_delivery st target :
  (map_get (connectionMap st) target = None →
     code unreachable = VStr "2201"
     ∧ (∀ msg, send target msg st = (Some unreachable, st, []))
     ∧ (∀ s data c, socket_cid st !! s = Some c → c ≠ "" →
          get_prop data "to" = target →
          onForward onmessage_send s data st =
            ((), st, [OnMessage target (stamped c data); Ack s [VStr "2201"]])))
  ∧ (∀ dest, map_get (connectionMap st) target = Some dest →
     (∀ msg, send target msg st = (None, st, [Emit dest forwardEventName [msg]]))
     ∧ (∀ s data c, socket_cid st !! s = Some c → c ≠ "" →
          get_prop data "to" = target →
          onForward onmessage_send s data st =
            ((), st, [OnMessage target (stamped c data);
                      Emit dest forwardEventName [VObj (stamped c data)];
                      Ack s []]))).
Proof.
  split.
  - intros Habsent. split; [done|]. split.
    + intros msg. by apply emitChatEvent_none.
    + intros s data c Hc Hne <-. rewrite (onForward_routed _ _ _ c) by done.
      by rewrite Habsent.
  - intros dest Hpresent. split.
    + intros msg. by apply emitChatEvent_some.
    + intros s data c Hc Hne <-. rewrite (onForward_routed _ _ _ c) by done.
      by rewrite Hpresent.
Qed.

(** The scenarios of the specification: carol is not connected, bob is. *)
Lemma unreachable_delivery_witness :
  (map_get (connectionMap st_alice_bob) (VStr "carol") = None
   ∧ send (VStr "carol") (VStr "hi") st_alice_bob = (Some unreachable, st_alice_bob, [])
   ∧ trace_of (onForward onmessage_send alice_socket
                 (list_to_map [("to", VStr "carol"); ("text", VStr "hi")]) st_alice_bob) =
       [OnMessage (VStr "carol") (list_to_map [("from", VStr "alice"); ("text", VStr "hi")]);
        Ack alice_socket [VStr "2201"]])
  ∧ (map_get (connectionMap st_alice_bob) (VStr "bob") = Some bob_socket
     ∧ send (VStr "bob") (VStr "hi") st_alice_bob =
         (None, st_alice_bob, [Emit bob_socket "owt-message" [VStr "hi"]])
     ∧ trace_of (onForward onmessage_send alice_socket
                   (list_to_map [("to", VStr "bob"); ("text", VStr "hi")]) st_alice_bob) =
         [OnMessage (VStr "bob") (list_to_map [("from", VStr "alice"); ("text", VStr "hi")]);
          Emit bob_socket "owt-message" [obj [("from", VStr "alice"); ("text", VStr "hi")]];
          Ack alice_socket []]).
Proof.
  assert (map_get (connectionMap st_alice_bob) (VStr "carol") = None) as Hcarol
    by (vm_compute; reflexivity).
  assert (map_get (connectionMap st_alice_bob) (VStr "bob") = Some bob_socket) as Hbob
    by (vm_compute; reflexivity).
  assert (socket_cid st_alice_bob !! alice_socket = Some "alice") as Hc
    by (vm_compute; reflexivity).
  assert ("alice" ≠ "") as Hne by discriminate.
  split; (split; [assumption|]).
  - destruct (unreachable_delivery st_alice_bob (VStr "carol")) as [Habsent _].
    destruct (Habsent Hcarol) as (_ & Hsend & Hforward). split; [apply Hsend|].
    rewrite (Hforward alice_socket _ "alice" Hc Hne) by (vm_compute; reflexivity).
    vm_compute. reflexivity.
  - destruct (unreachable_delivery st_alice_bob (VStr "bob")) as [_ Hpresent].
    destruct (Hpresent bob_socket Hbob) as [Hsend Hforward]. split; [apply Hsend|].
    rewrite (Hforward alice_socket _ "alice" Hc Hne) by (vm_compute; reflexivity).
    vm_compute. reflexivity.
Defined.

(** C5: a forward-message event on a connection without a cid is acknowledged
    with the code 2120 and the connection is closed; the router is not called,
    no event is emitted, and the directory, the registry and the fields of the
    sockets are unchanged, also after the disconnect notification that the
    close brings about. *)
Theorem unauthenticated_sender onmessage st s data :
  truthy (cid_value (socket_cid st !! s)) = false →
  let r := onForward onmessage s data st in
  trace_of r = [Ack s [VNum 2120]; Close s]
  ∧ connectionMap (state_of r) = connectionMap st
  ∧ roomMembers (state_of r) = roomMembers st
  ∧ socket_cid (state_of r) = socket_cid st
  ∧ socket_room (state_of r) = socket_room st
  ∧ (∀ reason time_bj,
       onDisconnect s reason time_bj (state_of r) = ((), state_of r, [])).
Proof.
  intros Hc r. subst r. rewrite onForward_unauthenticated by done.
  repeat (split; [done|]). intros reason time_bj.
  by apply onDisconnect_unauthenticated.
Qed.

Lemma unauthenticated_sender_witness :
  truthy (cid_value (socket_cid st_alice !! bob_socket)) = false
  ∧ trace_of (onForward onmessage_send bob_socket
                (list_to_map [("to", VStr "alice")]) st_alice) =
      [Ack bob_socket [VNum 2120]; Close bob_socket].
Proof.
  assert (truthy (cid_value (socket_cid st_alice !! bob_socket)) = false) as Hc
    by (vm_compute; reflexivity).
  split; [exact Hc|].
  apply (unauthenticated_sender onmessage_send st_alice bob_socket
           (list_to_map [("to", VStr "alice")]) Hc).
Defined.

(** C10: [server.send] to a cid of the directory emits the message as it is
    to the connection of that cid, on the channel ['owt-message'], the one on
    which the messages that clients forward are delivered; no field is added
    to the message and none is removed. *)
Theorem send_verbatim st cid message dest :
  connectionMap st !! cid = Some dest →
  send (VStr cid) message st = (None, st, [Emit dest "owt-message" [message]])
  ∧ (∀ s data c, socket_cid st !! s = Some c → c ≠ "" →
       get_prop data "to" = VStr cid →
       ∃ fwd, trace_of (onForward onmessage_send s data st) =
                [OnMessage (VStr cid) fwd; Emit dest "owt-message" [VObj fwd]; Ack s []]).
Proof.
  intros Hdest. split.
  - by apply emitChatEvent_some.
  - intros s data c Hc Hne Hto. exists (stamped c data).
    rewrite (onForward_routed _ _ _ c) by done. rewrite Hto. simpl. by rewrite Hdest.
Qed.

Lemma send_verbatim_witness :
  connectionMap st_alice_bob !! "bob" = Some bob_socket
  ∧ send (VStr "bob") (obj [("to", VStr "alice"); ("text", VStr "hi")]) st_alice_bob =
      (None, st_alice_bob,
       [Emit bob_socket "owt-message" [obj [("to", VStr "alice"); ("text", VStr "hi")]]])
  ∧ ∃ fwd,
      trace_of (onForward onmessage_send alice_socket
                  (list_to_map [("to", VStr "bob"); ("text", VStr "hi")]) st_alice_bob) =
        [OnMessage (VStr "bob") fwd; Emit bob_socket "owt-message" [VObj fwd];
         Ack alice_socket []].
Proof.
  assert (connectionMap st_alice_bob !! "bob" = Some bob_socket) as Hbob
    by (vm_compute; reflexivity).
  split; [exact Hbob|].
  destruct (send_verbatim st_alice_bob "bob"
              (obj [("to", VStr "alice"); ("text", VStr "hi")]) bob_socket Hbob)
    as [Hsend Hforward].
  split; [exact Hsend|].
  apply (Hforward alice_socket _ "alice").
  - vm_compute. reflexivity.
  - discriminate.
  - vm_compute. reflexivity.
Defined.

(** ** The authentication handshake *)

Lemma alter_set_add (m : gmap string (list string)) (room cid : string) :
  alter (set_add cid) room
    (if negb (bool_decide (is_Some (m !! room))) then <[room := []]> m else m) =
  <[room := set_add cid (default [] (m !! room))]> m.
Proof.
  apply map_eq. intros k. destruct (m !! room) as [l|] eqn:Hroom; simpl.
  - rewrite lookup_alter, lookup_insert. case_decide; [subst k|done].
    by rewrite Hroom.
  - rewrite lookup_alter, !lookup_insert.
    destruct (decide (room = k)); [|done]. by rewrite decide_True.
Qed.

Lemma onAuthentication_failure st s result time_bj :
  truthy (error result) = true →
  onAuthentication s result time_bj st =
    ((), set_adapter (fmap (filter (λ r, r ≠ s))) st,
     [Ack s [obj [("error", error result)]]; Close s]).
Proof.
  intros Herr. unfold onAuthentication. rewrite Herr.
  unfold disconnect, leave_all. by unfold_m.
Qed.

Lemma onAuthentication_success st s result time_bj :
  truthy (error result) = false →
  let cid := cid result in
  let room := or_else (room result) "default-room" in
  let st' := registered s cid room (state_of (disconnectClient cid st)) in
  let allUsers := default [] (roomMembers st' !! room) in
  onAuthentication s result time_bj st =
    ((), st',
     trace_of (disconnectClient cid st) ++
     Emit s "server-authenticated" [obj [("uid", VStr cid)]] ::
     ((λ r, Emit r "room-list" [strings allUsers]) <$> sockets_in s room st') ++
     ((λ r, Emit r "room-event"
              [joinMsg cid (filter (λ uid, uid ≠ cid) allUsers) time_bj]) <$>
        sockets_in s room st') ++
     [Ack s [obj [("uid", VStr cid); ("room", VStr room)]]]).
Proof.
  intros Herr cid room st' allUsers. subst cid room st' allUsers.
  unfold onAuthentication. rewrite Herr. unfold join, emit_in, registered, join.
  unfold_m. simpl.
  destruct (disconnectClient (cid result) st) as [[[] st1] t1]. simpl.
  match goal with
  | |- context [negb (bool_decide (is_Some (roomMembers st1 !! ?room)))] =>
      pose proof (alter_set_add (roomMembers st1) room (cid result)) as Halter
  end.
  destruct (negb (bool_decide _)); simpl in *;
    unfold set_roomMembers; simpl; rewrite Halter; reflexivity.
Qed.

Lemma disconnectClient_roomMembers st c :
  roomMembers (state_of (disconnectClient c st)) = roomMembers st.
Proof.
  destruct (connectionMap st !! c) as [old|] eqn:Hc.
  - by rewrite (disconnectClient_some _ _ old).
  - by rewrite disconnectClient_none.
Qed.

(** C6: when the authenticator signals failure for a connection that has no
    cid, which is every connection that has not completed a handshake, the
    handshake is acknowledged with an object whose only field, [error], is the
    reason as the authenticator gave it, the connection is closed, and the
    directory, the registry and the fields of the sockets are unchanged.  The
    ['disconnect'] event that the close raises changes nothing either and
    calls no observer, so the failed handshake together with the disconnect
    handler that its close runs leaves the directory and the registry as they
    were.  A connection that already carries a cid is outside the handshake
    protocol: its close runs the cleanup of the disconnect handler. *)
Theorem authentication_failure st s result time_bj :
  truthy (error result) = true →
  truthy (cid_value (socket_cid st !! s)) = false →
  let r := onAuthentication s result time_bj st in
  (∃ reply, trace_of r = [Ack s [VObj reply]; Close s]
            ∧ reply !! "error" = Some (error result)
            ∧ ∀ k, k ≠ "error" → reply !! k = None)
  ∧ connectionMap (state_of r) = connectionMap st
  ∧ roomMembers (state_of r) = roomMembers st
  ∧ socket_cid (state_of r) = socket_cid st
  ∧ socket_room (state_of r) = socket_room st
  ∧ (∀ reason time_bj',
       onDisconnect s reason time_bj' (state_of r) = ((), state_of r, []))
  ∧ (∀ reason time_bj',
       let r' := run [Authentication s result time_bj;
                      Disconnected s reason time_bj'] st in
       trace_of r' = trace_of r
       ∧ connectionMap (state_of r') = connectionMap st
       ∧ roomMembers (state_of r') = roomMembers st
       ∧ socket_cid (state_of r') = socket_cid st
       ∧ socket_room (state_of r') = socket_room st).
Proof.
  intros Herr Hc r. subst r.
  assert (∀ reason time_bj' st0, socket_cid st0 = socket_cid st →
            onDisconnect s reason time_bj' st0 = ((), st0, [])) as Hnoop.
  { intros reason time_bj' st0 Hcid. apply onDisconnect_unauthenticated.
    by rewrite Hcid. }
  split; [|split; [|split; [|split; [|split; [|split]]]]].
  - rewrite onAuthentication_failure by done.
    eexists. split; [reflexivity|]. simpl. split.
    + apply lookup_insert_eq.
    + intros k Hk. by rewrite lookup_insert_ne.
  - by rewrite onAuthentication_failure.
  - by rewrite onAuthentication_failure.
  - by rewrite onAuthentication_failure.
  - by rewrite onAuthentication_failure.
  - intros reason time_bj'. apply Hnoop. by rewrite onAuthentication_failure.
  - intros reason time_bj' r'. subst r'.
    unfold run, step, leave_all. unfold_m.
    rewrite onAuthentication_failure by done.
    rewrite (Hnoop reason time_bj') by done.
    by cbn.
Qed.

Lemma authentication_failure_witness :
  truthy (error (mkAuthResult (VStr "bad token") "" None)) = true
  ∧ truthy (cid_value (socket_cid st_alice !! bob_socket)) = false
  ∧ trace_of (onAuthentication bob_socket (mkAuthResult (VStr "bad token") "" None)
                "t2" st_alice) =
      [Ack bob_socket [obj [("error", VStr "bad token")]]; Close bob_socket]
  ∧ connectionMap (state_of (onAuthentication bob_socket
                     (mkAuthResult (VStr "bad token") "" None) "t2" st_alice)) =
      connectionMap st_alice
  ∧ roomMembers (state_of (onAuthentication bob_socket
                   (mkAuthResult (VStr "bad token") "" None) "t2" st_alice)) =
      roomMembers st_alice
  ∧ trace_of (onDisconnect bob_socket "server namespace disconnect" "t2"
                (state_of (onAuthentication bob_socket
                   (mkAuthResult (VStr "bad token") "" None) "t2" st_alice))) = []
  ∧ connectionMap (state_of (run [Authentication bob_socket
                       (mkAuthResult (VStr "bad token") "" None) "t2";
                     Disconnected bob_socket "server namespace disconnect" "t2"]
                     st_alice)) = connectionMap st_alice.
Proof.
  assert (truthy (error (mkAuthResult (VStr "bad token") "" None)) = true) as Herr
    by reflexivity.
  assert (truthy (cid_value (socket_cid st_alice !! bob_socket)) = false) as Hc
    by (vm_compute; reflexivity).
  split; [exact Herr|]. split; [exact Hc|].
  destruct (authentication_failure st_alice bob_socket
              (mkAuthResult (VStr "bad token") "" None) "t2" Herr Hc)
    as (_ & Hdir & Hrooms & _ & _ & Hnoop & Hrun).
  split; [vm_compute; reflexivity|].
  split; [exact Hdir|]. split; [exact Hrooms|].
  split; [by rewrite Hnoop|].
  by destruct (Hrun "server namespace disconnect" "t2") as (_ & -> & _).
Defined.

Lemma onAuthentication_state st s result time_bj :
  truthy (error result) = false →
  state_of (onAuthentication s result time_bj st) =
    registered s (cid result) (or_else (room result) "default-room")
      (state_of (disconnectClient (cid result) st)).
Proof. intros Herr. by rewrite onAuthentication_success. Qed.

Lemma onAuthentication_trace st s result time_bj :
  truthy (error result) = false →
  let cid := cid result in
  let room := or_else (room result) "default-room" in
  let st' := state_of (onAuthentication s result time_bj st) in
  let allUsers := default [] (roomMembers st' !! room) in
  trace_of (onAuthentication s result time_bj st) =
     trace_of (disconnectClient cid st) ++
     Emit s "server-authenticated" [obj [("uid", VStr cid)]] ::
     ((λ r, Emit r "room-list" [strings allUsers]) <$> sockets_in s room st') ++
     ((λ r, Emit r "room-event"
              [joinMsg cid (filter (λ uid, uid ≠ cid) allUsers) time_bj]) <$>
        sockets_in s room st') ++
     [Ack s [obj [("uid", VStr cid); ("room", VStr room)]]].
Proof. intros Herr. simpl. by rewrite onAuthentication_success. Qed.

(** ** The join broadcast *)

Lemma set_add_elem x l : x ∈ set_add x l.
Proof.
  unfold set_add. case_decide; [done|]. apply elem_of_app. right. by left.
Qed.

Lemma registered_roomMembers s cid room st :
  roomMembers (registered s cid room st) !! room =
    Some (set_add cid (default [] (roomMembers st !! room))).
Proof. unfold registered. simpl. apply lookup_insert_eq. Qed.

Lemma registered_sockets_in s cid room st :
  s ∈ sockets_in s room (registered s cid room st).
Proof.
  unfold registered, sockets_in, join. unfold_m. simpl. rewrite lookup_insert_eq. simpl.
  case_decide; [done|]. apply elem_of_app. right. by left.
Qed.

(** What bob's handshake emits when alice is in the room. *)
Lemma bob_joins_trace :
  trace_of (onAuthentication bob_socket (accepted "bob" "r1") "t2" st_alice) =
    [Emit bob_socket "server-authenticated" [obj [("uid", VStr "bob")]];
     Emit alice_socket "room-list" [strings ["alice"; "bob"]];
     Emit bob_socket "room-list" [strings ["alice"; "bob"]];
     Emit alice_socket "room-event" [joinMsg "bob" ["alice"] "t2"];
     Emit bob_socket "room-event" [joinMsg "bob" ["alice"] "t2"];
     Ack bob_socket [obj [("uid", VStr "bob"); ("room", VStr "r1")]]].
Proof. vm_compute. reflexivity. Qed.

Lemma joinMsg_users cid users time_bj :
  match joinMsg cid users time_bj with
  | VObj o => o !! "users"
  | _ => None
  end = Some (strings users).
Proof.
  unfold joinMsg, obj. simpl. rewrite !lookup_insert_ne by done.
  apply lookup_insert_eq.
Qed.

Lemma joinMsg_inj cid users users' time_bj :
  joinMsg cid users time_bj = joinMsg cid users' time_bj → users = users'.
Proof.
  intros Heq. pose proof (joinMsg_users cid users time_bj) as Husers.
  rewrite Heq, joinMsg_users in Husers. unfold strings in Husers.
  injection Husers as Husers. symmetry in Husers. clear Heq. revert users' Husers.
  induction users as [|u users IH]; intros [|u' users']; simpl; try done.
  intros [= -> Heq']. f_equal. by apply IH.
Qed.

(** C7, as the specification words it, fails: when bob joins the room in which
    alice is, the member list of the ['user-joined'] event that alice receives
    is not the updated list of the room. *)
Lemma user_joined_counterexample :
  ¬ user_joined_lists_members st_alice bob_socket (accepted "bob" "r1") "t2".
Proof.
  unfold user_joined_lists_members. intros Hclaim.
  specialize (Hclaim alice_socket).
  assert (default [] (roomMembers (state_of (onAuthentication bob_socket
            (accepted "bob" "r1") "t2" st_alice)) !! "r1") = ["alice"; "bob"]) as Hmembers
    by (vm_compute; reflexivity).
  assert (sockets_in bob_socket "r1" (state_of (onAuthentication bob_socket
            (accepted "bob" "r1") "t2" st_alice)) = [alice_socket; bob_socket]) as Hroom
    by (vm_compute; reflexivity).
  simpl in Hclaim. rewrite Hmembers, Hroom, bob_joins_trace in Hclaim.
  specialize (Hclaim ltac:(by left)).
  repeat (apply elem_of_cons in Hclaim as [Hclaim|Hclaim];
          [first [discriminate
                 | injection Hclaim as Hclaim; by apply joinMsg_inj in Hclaim]|]).
  by apply elem_of_nil in Hclaim.
Qed.

(** C7, amended: a successful handshake of [cid] into [room] broadcasts to the
    sockets of the room, the joiner's among them, a ['room-list'] event with
    the updated member list of the room, the joiner included, and a
    ['room-event'] of type ['user-joined'] with the acting cid, the members
    other than the joiner, and the timestamp. *)
Theorem user_joined_broadcast st s result time_bj :
  truthy (error result) = false →
  let r := onAuthentication s result time_bj st in
  let cid := cid result in
  let room := or_else (room result) "default-room" in
  let members := default [] (roomMembers (state_of r) !! room) in
  members = set_add cid (default [] (roomMembers st !! room))
  ∧ cid ∈ members
  ∧ s ∈ sockets_in s room (state_of r)
  ∧ (∀ peer, peer ∈ sockets_in s room (state_of r) →
       Emit peer "room-list" [strings members] ∈ trace_of r
       ∧ Emit peer "room-event"
           [obj [("type", VStr "user-joined"); ("cid", VStr cid);
                 ("users", strings (filter (λ uid, uid ≠ cid) members));
                 ("timestamp", VStr time_bj)]] ∈ trace_of r).
Proof.
  intros Herr r cid room members. subst r cid room members.
  pose proof (onAuthentication_trace st s result time_bj Herr) as Htrace.
  simpl in Htrace. rewrite Htrace. clear Htrace.
  rewrite onAuthentication_state by done.
  rewrite registered_roomMembers, disconnectClient_roomMembers. simpl.
  split; [done|]. split; [apply set_add_elem|].
  split; [apply registered_sockets_in|].
  intros peer Hpeer. split.
  - apply elem_of_app. right. right. apply elem_of_app. left.
    apply (list_elem_of_fmap_2 (λ r, Emit r "room-list" _)). exact Hpeer.
  - apply elem_of_app. right. right. apply elem_of_app. right.
    apply elem_of_app. left.
    apply (list_elem_of_fmap_2 (λ r, Emit r "room-event" _)). exact Hpeer.
Qed.

(** The scenario of the specification: when bob joins the room in which alice
    is, alice receives the ['user-joined'] event of bob, and its member list
    is alice alone. *)
Lemma user_joined_broadcast_witness :
  truthy (error (accepted "bob" "r1")) = false
  ∧ Emit alice_socket "room-list" [strings ["alice"; "bob"]]
      ∈ trace_of (onAuthentication bob_socket (accepted "bob" "r1") "t2" st_alice)
  ∧ Emit alice_socket "room-event"
      [obj [("type", VStr "user-joined"); ("cid", VStr "bob");
            ("users", strings ["alice"]); ("timestamp", VStr "t2")]]
      ∈ trace_of (onAuthentication bob_socket (accepted "bob" "r1") "t2" st_alice).
Proof.
  assert (truthy (error (accepted "bob" "r1")) = false) as Herr by reflexivity.
  split; [exact Herr|].
  destruct (user_joined_broadcast st_alice bob_socket (accepted "bob" "r1") "t2" Herr)
    as (Hmembers & _ & _ & Hpeers).
  assert (set_add "bob" (default [] (roomMembers st_alice !! "r1")) = ["alice"; "bob"])
    as Hlist by (vm_compute; reflexivity).
  simpl in Hmembers, Hpeers. rewrite Hmembers, Hlist in Hpeers.
  apply (Hpeers alice_socket).
  assert (sockets_in bob_socket "r1" (state_of (onAuthentication bob_socket
            (accepted "bob" "r1") "t2" st_alice)) = [alice_socket; bob_socket]) as ->
    by (vm_compute; reflexivity).
  by left.
Defined.

(** ** The disconnection handler *)

Lemma set_delete_idemp c l : set_delete c (set_delete c l) = set_delete c l.
Proof.
  unfold set_delete. induction l as [|x l IH]; [done|].
  rewrite filter_cons. case_decide; [|done].
  rewrite filter_cons, decide_True by done. by rewrite IH.
Qed.

Lemma leave_idemp room c m : leave room c (leave room c m) = leave room c m.
Proof.
  unfold leave at 2 3. destruct (m !! room) as [members|] eqn:Hroom.
  - case_bool_decide as Hlen.
    + unfold leave. by rewrite lookup_delete_eq.
    + unfold leave. rewrite lookup_insert_eq, set_delete_idemp.
      rewrite bool_decide_eq_false_2 by done. apply insert_insert_eq.
  - unfold leave. by rewrite Hroom.
Qed.

Lemma leave_room_idemp room c m :
  leave_room room c (leave_room room c m) = leave_room room c m.
Proof.
  unfold leave_room. destruct (truthy (cid_value room)); [|done]. apply leave_idemp.
Qed.

Lemma alter_Some {A} (f : A → A) (m : gmap string A) k x :
  m !! k = Some x → alter f k m = <[k := f x]> m.
Proof.
  intros Hk. apply map_eq. intros j. rewrite lookup_alter, lookup_insert.
  case_decide; [subst j; by rewrite Hk|done].
Qed.

Lemma onDisconnect_state st s reason time_bj c :
  socket_cid st !! s = Some c → c ≠ "" →
  state_of (onDisconnect s reason time_bj st) =
    set_roomMembers (leave_room (socket_room st !! s) c)
      (set_connectionMap (delete c) st).
Proof.
  intros Hc Hne. unfold onDisconnect, emit_to. unfold_m. simpl. rewrite Hc.
  rewrite truthy_cid_value_some by done. simpl.
  assert (¬ is_Some (connectionMap st !! c) →
          connectionMap st = delete c (connectionMap st)) as Habsent.
  { intros Hreg. symmetry. apply delete_id. by apply eq_None_not_Some. }
  case_bool_decide as Hreg; simpl.
  all: unfold leave_room, leave.
  all: destruct (socket_room st !! s) as [room|] eqn:Hroom; simpl.
  all: try destruct (negb (String.eqb room "")); simpl.
  all: try (destruct (roomMembers st !! room) as [members|] eqn:Hm; simpl).
  all: try (rewrite lookup_alter_eq, Hm; simpl; case_bool_decide; simpl).
  all: unfold set_roomMembers, set_connectionMap; simpl; rewrite ?Hm.
  all: rewrite ?bool_decide_eq_true_2 by done; rewrite ?bool_decide_eq_false_2 by done.
  all: rewrite ?delete_alter_eq, ?(alter_Some _ _ _ members) by done.
  all: try rewrite <- (Habsent Hreg).
  all: by destruct st.
Qed.

Lemma onDisconnect_fields st s reason time_bj :
  socket_cid (state_of (onDisconnect s reason time_bj st)) = socket_cid st
  ∧ socket_room (state_of (onDisconnect s reason time_bj st)) = socket_room st
  ∧ adapter (state_of (onDisconnect s reason time_bj st)) = adapter st.
Proof.
  destruct (truthy (cid_value (socket_cid st !! s))) eqn:Hc.
  - apply truthy_cid_value_true in Hc as (c & Hc & Hne).
    by rewrite (onDisconnect_state _ _ _ _ c).
  - by rewrite onDisconnect_unauthenticated.
Qed.

Lemma leave_all_idemp s st :
  state_of (leave_all s (state_of (leave_all s st))) = state_of (leave_all s st).
Proof.
  unfold leave_all. unfold_m. unfold set_adapter. simpl. f_equal.
  apply map_eq. intros k. rewrite !lookup_fmap.
  destruct (adapter st !! k) as [l|]; [|done]. simpl. f_equal.
  induction l as [|x l IH]; [done|].
  rewrite filter_cons. case_decide; [|done].
  rewrite filter_cons, decide_True by done. by rewrite IH.
Qed.

Lemma onDisconnect_idemp st s reason time_bj reason' time_bj' :
  state_of (onDisconnect s reason' time_bj' (state_of (onDisconnect s reason time_bj st))) =
  state_of (onDisconnect s reason time_bj st).
Proof.
  destruct (truthy (cid_value (socket_cid st !! s))) eqn:Hc.
  - apply truthy_cid_value_true in Hc as (c & Hc & Hne).
    rewrite (onDisconnect_state _ _ _ _ c); [|by rewrite (onDisconnect_state _ _ _ _ c)|done].
    rewrite !(onDisconnect_state _ _ _ _ c) by done.
    unfold set_roomMembers, set_connectionMap. simpl.
    by rewrite delete_delete_eq, leave_room_idemp.
  - rewrite !onDisconnect_unauthenticated; try done.
    by rewrite onDisconnect_unauthenticated.
Qed.

(** C8: the disconnect handler run twice for the same connection, hence for
    the same cid, leaves the directory, the registry and the rest of the state
    as one run does; so does a transport notification that arrives twice. *)
Theorem disconnect_idempotent st s reason time_bj reason' time_bj' :
  state_of (onDisconnect s reason' time_bj' (state_of (onDisconnect s reason time_bj st))) =
    state_of (onDisconnect s reason time_bj st)
  ∧ state_of (step (Disconnected s reason' time_bj')
                (state_of (step (Disconnected s reason time_bj) st))) =
    state_of (step (Disconnected s reason time_bj) st).
Proof.
  split; [apply onDisconnect_idemp|].
  assert (∀ r t st0, state_of (step (Disconnected s r t) st0) =
            state_of (onDisconnect s r t (state_of (leave_all s st0)))) as Hstep.
  { intros r t st0. unfold step, leave_all. unfold_m. simpl.
    by destruct (onDisconnect s r t _) as [[[] st1] t1]. }
  rewrite !Hstep.
  set (st1 := state_of (leave_all s st)).
  assert (state_of (leave_all s (state_of (onDisconnect s reason time_bj st1))) =
          state_of (onDisconnect s reason time_bj st1)) as ->.
  { destruct (onDisconnect_fields st1 s reason time_bj) as (_ & _ & Had).
    pose proof (leave_all_idemp s st) as Hidem. fold st1 in Hidem.
    unfold leave_all in *. unfold_m. unfold set_adapter in *. simpl in *.
    rewrite Had. injection Hidem as Hidem. rewrite Hidem. rewrite <- Had.
    by destruct (onDisconnect s reason time_bj st1) as [[[] []] ?]. }
  apply onDisconnect_idemp.
Qed.

(** ** Eviction *)

Lemma run_cons_state ev evs st :
  state_of (run (ev :: evs) st) = state_of (run evs (state_of (step ev st))).
Proof.
  simpl. unfold_m. destruct (step ev st) as [[[] st1] t1]. simpl.
  by destruct (run evs st1) as [[[] st2] t2].
Qed.

Lemma disconnectClient_socket_cid_none st c s :
  socket_cid st !! s = None →
  socket_cid (state_of (disconnectClient c st)) !! s = None.
Proof.
  intros Hs. destruct (connectionMap st !! c) as [old|] eqn:Hc.
  - rewrite (disconnectClient_some _ _ old) by done. simpl.
    apply lookup_delete_None. by right.
  - by rewrite disconnectClient_none.
Qed.

Lemma onConnection_new st s :
  socket_cid st !! s = None → onConnection s st = ((), st, []).
Proof. intros Hs. unfold onConnection. unfold_m. simpl. by rewrite Hs. Qed.

Lemma onConnection_socket_cid_none st s old :
  socket_cid st !! old = None →
  socket_cid (state_of (onConnection s st)) !! old = None.
Proof.
  intros Hold. unfold onConnection. unfold_m. simpl.
  destruct (truthy (cid_value (socket_cid st !! s))); [|done].
  pose proof (disconnectClient_socket_cid_none st (default "" (socket_cid st !! s)) old Hold)
    as Hnone.
  unfold state_of in Hnone.
  by destruct (disconnectClient _ st) as [[[] st1] t1].
Qed.

Lemma step_disconnected_state st s reason time_bj :
  state_of (step (Disconnected s reason time_bj) st) =
    state_of (onDisconnect s reason time_bj (state_of (leave_all s st))).
Proof.
  unfold step, leave_all. unfold_m. simpl.
  by destruct (onDisconnect s reason time_bj _) as [[[] st1] t1].
Qed.

Lemma step_forwarded_state st s data :
  connectionMap (state_of (step (Forwarded s data) st)) = connectionMap st
  ∧ roomMembers (state_of (step (Forwarded s data) st)) = roomMembers st
  ∧ socket_cid (state_of (step (Forwarded s data) st)) = socket_cid st.
Proof.
  simpl. destruct (truthy (cid_value (socket_cid st !! s))) eqn:Hc.
  - apply truthy_cid_value_true in Hc as (c & Hc & Hne).
    rewrite (onForward_routed _ _ _ c) by done.
    by destruct (map_get _ _).
  - by rewrite onForward_unauthenticated.
Qed.

Lemma step_send_state st cid message :
  state_of (step (Send cid message) st) = st.
Proof.
  simpl. unfold send. unfold_m.
  destruct (map_get (connectionMap st) cid) as [target|] eqn:Hc.
  - by rewrite (emitChatEvent_some _ _ _ _ target).
  - by rewrite emitChatEvent_none.
Qed.

Lemma step_socket_cid_none st ev old :
  socket_cid st !! old = None → ¬ authenticates old ev →
  socket_cid (state_of (step ev st)) !! old = None.
Proof.
  intros Hold Hev. destruct ev as [s|s result time_bj|s reason time_bj|s data|c m|c].
  - by apply onConnection_socket_cid_none.
  - simpl in *. destruct (truthy (error result)) eqn:Herr.
    + by rewrite onAuthentication_failure.
    + rewrite onAuthentication_state by done. unfold registered, join. unfold_m. simpl.
      rewrite lookup_insert_ne by done. by apply disconnectClient_socket_cid_none.
  - rewrite step_disconnected_state.
    destruct (onDisconnect_fields (state_of (leave_all s st)) s reason time_bj) as (-> & _).
    done.
  - by destruct (step_forwarded_state st s data) as (_ & _ & ->).
  - by rewrite step_send_state.
  - by apply disconnectClient_socket_cid_none.
Qed.

Lemma run_socket_cid_none evs st old :
  socket_cid st !! old = None → Forall (λ ev, ¬ authenticates old ev) evs →
  socket_cid (state_of (run evs st)) !! old = None.
Proof.
  revert st. induction evs as [|ev evs IH]; intros st Hold Hevs; [done|].
  apply Forall_cons in Hevs as [Hev Hevs].
  rewrite run_cons_state. apply IH; [|done]. by apply step_socket_cid_none.
Qed.

(** C9: [disconnectClient] notifies the connection of the cid, takes it out of
    the directory, sets its [cid] field to null and then closes it.  The
    disconnect handler of the evicted connection, whenever it runs afterward,
    leaves the whole state unchanged and calls no observer, as long as the
    connection does not authenticate again; in particular it removes nothing
    of a connection that registered under the same cid in the meantime. *)
Theorem evicted_disconnect_is_noop st c old :
  connectionMap st !! c = Some old →
  let r := disconnectClient c st in
  (∃ st0, socket_cid st0 !! old = None
          ∧ state_of r = state_of (disconnect old st0)
          ∧ trace_of r = Emit old "server-disconnect" [] :: trace_of (disconnect old st0))
  ∧ trace_of r = [Emit old "server-disconnect" []; Close old]
  ∧ connectionMap (state_of r) !! c = None
  ∧ socket_cid (state_of r) !! old = None
  ∧ (∀ evs, Forall (λ ev, ¬ authenticates old ev) evs →
       let st' := state_of (run evs (state_of r)) in
       ∀ reason time_bj, onDisconnect old reason time_bj st' = ((), st', []))
  ∧ (∀ s result time_bj, s ≠ old → truthy (error result) = false → cid result = c →
       let st' := state_of (onAuthentication s result time_bj st) in
       connectionMap st' !! c = Some s
       ∧ c ∈ default [] (roomMembers st' !! or_else (room result) "default-room")
       ∧ ∀ reason time_bj',
           let st'' := state_of (onDisconnect old reason time_bj' st') in
           trace_of (onDisconnect old reason time_bj' st') = []
           ∧ st'' = st').
Proof.
  intros Hc r. subst r. rewrite (disconnectClient_some _ _ old) by done.
  assert (socket_cid (set_socket_cid (delete old) (set_connectionMap (delete c) st))
            !! old = None) as Hnull by (simpl; apply lookup_delete_eq).
  split; [|split; [|split; [|split; [|split]]]].
  - by exists (set_socket_cid (delete old) (set_connectionMap (delete c) st)).
  - done.
  - simpl. apply lookup_delete_eq.
  - exact Hnull.
  - intros evs Hevs st' reason time_bj. apply onDisconnect_unauthenticated.
    subst st'. rewrite run_socket_cid_none; [done| |done]. exact Hnull.
  - intros s result time_bj Hs Herr Hcid st'. subst st'.
    rewrite onAuthentication_state by done. rewrite Hcid.
    rewrite (disconnectClient_some _ _ old) by done.
    split; [|split].
    + unfold registered, join. unfold_m. simpl. apply lookup_insert_eq.
    + rewrite registered_roomMembers. simpl. apply set_add_elem.
    + intros reason time_bj'. rewrite onDisconnect_unauthenticated; [done|].
      unfold registered, join. unfold_m. simpl.
      rewrite lookup_insert_ne by done. by rewrite lookup_delete_eq.
Qed.

(** Alice signs in a second time, from the second socket: her first socket is
    evicted, and its disconnect event, also when it comes after bob joined,
    changes nothing. *)
Lemma evicted_disconnect_is_noop_witness :
  connectionMap st_alice !! "alice" = Some alice_socket
  ∧ trace_of (disconnectClient "alice" st_alice) =
      [Emit alice_socket "server-disconnect" []; Close alice_socket]
  ∧ socket_cid (state_of (disconnectClient "alice" st_alice)) !! alice_socket = None
  ∧ onDisconnect alice_socket "server namespace disconnect" "t3"
      (state_of (run bob_joins (state_of (disconnectClient "alice" st_alice)))) =
      ((), state_of (run bob_joins (state_of (disconnectClient "alice" st_alice))), [])
  ∧ connectionMap (state_of (onDisconnect alice_socket "server namespace disconnect" "t3"
      (state_of (onAuthentication bob_socket (accepted "alice" "r1") "t2" st_alice))))
      !! "alice" = Some bob_socket.
Proof.
  assert (connectionMap st_alice !! "alice" = Some alice_socket) as Hc
    by (vm_compute; reflexivity).
  split; [exact Hc|].
  destruct (evicted_disconnect_is_noop st_alice "alice" alice_socket Hc)
    as (_ & Htrace & _ & Hnull & Hlater & Hagain).
  split; [exact Htrace|]. split; [exact Hnull|]. split.
  - apply (Hlater bob_joins). repeat constructor; simpl; [tauto|discriminate].
  - destruct (Hagain bob_socket (accepted "alice" "r1") "t2") as (Hnew & _ & Hnoop);
      [discriminate|reflexivity|reflexivity|].
    destruct (Hnoop "server namespace disconnect" "t3") as [_ ->]. exact Hnew.
Defined.

(** ** The single-session invariant *)

Lemma disconnectClient_consistent st c :
  directory_consistent st →
  directory_consistent (state_of (disconnectClient c st)).
Proof.
  intros Hst. destruct (connectionMap st !! c) as [old|] eqn:Hc.
  - rewrite (disconnectClient_some _ _ old) by done. simpl.
    intros c' s'. simpl. intros [Hne Hc']%lookup_delete_Some.
    rewrite lookup_delete_ne; [by apply Hst|].
    intros <-. apply Hst in Hc, Hc'. congruence.
  - by rewrite disconnectClient_none.
Qed.

Lemma registered_consistent s cid room st :
  directory_consistent st → socket_cid st !! s = None →
  directory_consistent (registered s cid room st).
Proof.
  intros Hst Hs c' s'. unfold registered, join. unfold_m. simpl.
  intros Hc'. apply lookup_insert_Some in Hc' as [[<- <-]|[Hne Hc']].
  - apply lookup_insert_eq.
  - rewrite lookup_insert_ne; [by apply Hst|].
    intros <-. apply Hst in Hc'. congruence.
Qed.

Lemma delete_consistent c st :
  directory_consistent st →
  directory_consistent (set_connectionMap (delete c) st).
Proof.
  intros Hst c' s'. simpl. intros [_ Hc']%lookup_delete_Some. by apply Hst.
Qed.

Lemma step_consistent st ev :
  directory_consistent st → permitted st ev →
  directory_consistent (state_of (step ev st)).
Proof.
  intros Hst Hev. destruct ev as [s|s result time_bj|s reason time_bj|s data|c m|c].
  - simpl in *. by rewrite onConnection_new.
  - simpl in *. destruct (truthy (error result)) eqn:Herr.
    + by rewrite onAuthentication_failure.
    + rewrite onAuthentication_state by done. apply registered_consistent.
      * by apply disconnectClient_consistent.
      * by apply disconnectClient_socket_cid_none.
  - rewrite step_disconnected_state.
    set (st1 := state_of (leave_all s st)).
    assert (directory_consistent st1) as Hst1 by done.
    destruct (truthy (cid_value (socket_cid st1 !! s))) eqn:Hc.
    + apply truthy_cid_value_true in Hc as (c & Hc & Hne).
      rewrite (onDisconnect_state _ _ _ _ c) by done.
      by apply (delete_consistent c) in Hst1.
    + by rewrite onDisconnect_unauthenticated.
  - destruct (step_forwarded_state st s data) as (Hdir & _ & Hcid).
    intros c' s'. rewrite Hdir, Hcid. apply Hst.
  - by rewrite step_send_state.
  - by apply disconnectClient_consistent.
Qed.

Lemma reachable_consistent st : reachable st → directory_consistent st.
Proof.
  induction 1 as [|st ev Hst IH Hev]; [done|]. by apply step_consistent.
Qed.

Lemma reachable_run evs st :
  reachable st → permitted_run st evs → reachable (state_of (run evs st)).
Proof.
  revert st. induction evs as [|ev evs IH]; intros st Hst Hevs; [done|].
  destruct Hevs as [Hev Hevs]. rewrite run_cons_state.
  apply IH; [|done]. by apply reachable_step.
Qed.

(** C1: the directory maps a cid to one connection.  When a second connection
    authenticates with a cid of the directory, the connection registered
    before is sent ['server-disconnect'] and is closed, in this order and
    before anything else, it is no longer the connection of the cid and has
    lost its [cid] field, and the new connection is the one registered under
    the cid.  In every state that the server reaches while each connection
    authenticates at most once, the evicted connection is registered under no
    cid at all afterward. *)
Theorem single_session st s result time_bj old :
  truthy (error result) = false →
  connectionMap st !! cid result = Some old →
  old ≠ s →
  let r := onAuthentication s result time_bj st in
  (∃ rest, trace_of r = Emit old "server-disconnect" [] :: Close old :: rest)
  ∧ connectionMap (state_of r) !! cid result = Some s
  ∧ socket_cid (state_of r) !! old = None
  ∧ (∀ c s1 s2, connectionMap (state_of r) !! c = Some s1 →
                connectionMap (state_of r) !! c = Some s2 → s1 = s2)
  ∧ (∀ c, connectionMap (state_of r) !! c = Some old →
          c ≠ cid result ∧ connectionMap st !! c = Some old)
  ∧ (reachable st → ∀ c, connectionMap (state_of r) !! c ≠ Some old).
Proof.
  intros Herr Hold Hne r. subst r.
  pose proof (onAuthentication_trace st s result time_bj Herr) as Htrace.
  simpl in Htrace. rewrite Htrace. clear Htrace.
  rewrite onAuthentication_state by done.
  rewrite (disconnectClient_some _ _ old) by done.
  assert (∀ c, connectionMap (registered s (cid result)
                 (or_else (room result) "default-room")
                 (set_adapter (fmap (filter (λ r, r ≠ old)))
                    (set_socket_cid (delete old)
                       (set_connectionMap (delete (cid result)) st)))) !! c = Some old →
               c ≠ cid result ∧ connectionMap st !! c = Some old) as Hother.
  { intros c. unfold registered, join. unfold_m. simpl.
    intros [[_ ?]|[Hc [_ Hc']%lookup_delete_Some]]%lookup_insert_Some; [done|].
    by split. }
  split; [by eexists|]. split; [|split; [|split; [|split]]].
  - unfold registered, join. unfold_m. simpl. apply lookup_insert_eq.
  - unfold registered, join. unfold_m. simpl.
    rewrite lookup_insert_ne by done. apply lookup_delete_eq.
  - intros c s1 s2 H1 H2. congruence.
  - exact Hother.
  - intros Hst c Hc. apply Hother in Hc as [Hc Hc'].
    apply reachable_consistent in Hst. apply Hst in Hold, Hc'. congruence.
Qed.

(** Alice signs in a second time, from bob's socket. *)
Lemma single_session_witness :
  truthy (error (accepted "alice" "r1")) = false
  ∧ connectionMap st_alice !! cid (accepted "alice" "r1") = Some alice_socket
  ∧ alice_socket ≠ bob_socket
  ∧ reachable st_alice
  ∧ connectionMap (state_of (onAuthentication bob_socket (accepted "alice" "r1") "t2"
                               st_alice)) !! "alice" = Some bob_socket
  ∧ ∀ c, connectionMap (state_of (onAuthentication bob_socket (accepted "alice" "r1") "t2"
                                    st_alice)) !! c ≠ Some alice_socket.
Proof.
  assert (reachable st_alice) as Hst.
  { apply reachable_run; [constructor|]. simpl. split; [reflexivity|].
    split; [|done]. vm_compute. reflexivity. }
  assert (truthy (error (accepted "alice" "r1")) = false) as Herr by reflexivity.
  assert (connectionMap st_alice !! cid (accepted "alice" "r1") = Some alice_socket) as Hold
    by (vm_compute; reflexivity).
  assert (alice_socket ≠ bob_socket) as Hne by discriminate.
  destruct (single_session st_alice bob_socket (accepted "alice" "r1") "t2" alice_socket
              Herr Hold Hne) as (_ & Hnew & _ & _ & _ & Habsent).
  repeat (split; [assumption|]). exact (Habsent Hst).
Defined.

(** ** The room registry after an eviction *)

(** C2 fails on an eviction: the evicted connection has lost its [cid] field,
    so its disconnect handler skips the registry, and the cid stays a member
    of its room.  After the owner disconnects alice, she is a member of r1
    with no entry in the directory; after she signs in again into r2, she is
    a member of r1 while her only connection is in r2. *)
Theorem evicted_member_stays :
  (reachable (state_of (run alice_evicted init))
   ∧ connectionMap (state_of (run alice_evicted init)) = ∅
   ∧ roomMembers (state_of (run alice_evicted init)) = {["r1" := ["alice"]]})
  ∧ (reachable (state_of (run alice_moves init))
     ∧ connectionMap (state_of (run alice_moves init)) = {["alice" := bob_socket]}
     ∧ socket_room (state_of (run alice_moves init)) !! bob_socket = Some "r2"
     ∧ roomMembers (state_of (run alice_moves init)) !! "r1" = Some ["alice"]
     ∧ roomMembers (state_of (run alice_moves init)) !! "r2" = Some ["alice"]).
Proof.
  split.
  - split.
    + apply reachable_run; [constructor|]. simpl. split; [reflexivity|].
      split; [vm_compute; reflexivity|]. done.
    + split; vm_compute; reflexivity.
  - split.
    + apply reachable_run; [constructor|]. simpl. split; [reflexivity|].
      split; [vm_compute; reflexivity|].
      split; [vm_compute; reflexivity|].
      split; [vm_compute; reflexivity|]. done.
    + repeat split; vm_compute; reflexivity.
Qed.

(** The part of the registry invariant that holds on every run: a room whose
    last member leaves is deleted, so no room of the registry is empty. *)
Lemma leave_room_nonempty room c m :
  (∀ r members, m !! r = Some members → members ≠ []) →
  ∀ r members, leave_room room c m !! r = Some members → members ≠ [].
Proof.
  intros Hm r members. unfold leave_room, leave.
  destruct (truthy (cid_value room)); [|apply Hm].
  destruct (m !! default "" room) as [l|] eqn:Hroom; [|apply Hm].
  case_bool_decide as Hlen.
  - intros [_ Hr]%lookup_delete_Some. by apply (Hm r).
  - intros [[_ <-]|[_ Hr]]%lookup_insert_Some; [|by apply (Hm r)].
    by intros Hnil%(f_equal length).
Qed.

Lemma step_rooms_nonempty st ev :
  rooms_nonempty st → rooms_nonempty (state_of (step ev st)).
Proof.
  intros Hst. destruct ev as [s|s result time_bj|s reason time_bj|s data|c m|c].
  - simpl. unfold onConnection. unfold_m. simpl.
    destruct (truthy (cid_value (socket_cid st !! s))); [|done].
    pose proof (disconnectClient_roomMembers st (default "" (socket_cid st !! s))) as Hrooms.
    unfold state_of in Hrooms.
    destruct (disconnectClient _ st) as [[[] st1] t1]. simpl in *.
    intros room members. simpl. rewrite Hrooms. apply Hst.
  - simpl. destruct (truthy (error result)) eqn:Herr.
    + by rewrite onAuthentication_failure.
    + rewrite onAuthentication_state by done. intros r members.
      unfold registered. simpl.
      intros [[_ <-]|[_ Hr]]%lookup_insert_Some.
      * intros Hnil. pose proof (set_add_elem (cid result)
          (default [] (roomMembers (state_of (disconnectClient (cid result) st))
             !! or_else (room result) "default-room"))) as Helem.
        rewrite Hnil in Helem. by apply elem_of_nil in Helem.
      * rewrite disconnectClient_roomMembers in Hr. by apply (Hst r).
  - rewrite step_disconnected_state.
    set (st1 := state_of (leave_all s st)).
    assert (rooms_nonempty st1) as Hst1 by done.
    destruct (truthy (cid_value (socket_cid st1 !! s))) eqn:Hc.
    + apply truthy_cid_value_true in Hc as (c & Hc & Hne).
      rewrite (onDisconnect_state _ _ _ _ c) by done.
      intros room members. simpl. by apply leave_room_nonempty.
    + by rewrite onDisconnect_unauthenticated.
  - destruct (step_forwarded_state st s data) as (_ & Hrooms & _).
    intros room members. rewrite Hrooms. apply Hst.
  - by rewrite step_send_state.
  - intros room members. simpl. rewrite disconnectClient_roomMembers. apply Hst.
Qed.

Lemma run_rooms_nonempty evs : rooms_nonempty (state_of (run evs init)).
Proof.
  assert (∀ st, rooms_nonempty st → rooms_nonempty (state_of (run evs st))) as Hrun.
  { induction evs as [|ev evs IH]; intros st Hst; [done|].
    rewrite run_cons_state. by apply IH, step_rooms_nonempty. }
  apply Hrun. intros room members. simpl. by rewrite lookup_empty.
Qed.

(** The scenario of the specification: bob disconnects on a ping timeout; the
    room becomes alice alone, alice receives ['user-left'] with the remaining
    members, and the disconnect observer is called with bob's cid. *)
Lemma bob_leaves :
  trace_of (step (Disconnected bob_socket "ping timeout" "t3") st_alice_bob) =
    [Emit alice_socket "room-event"
       [obj [("type", VStr "user-left"); ("cid", VStr "bob");
             ("users", strings ["alice"]); ("timestamp", VStr "t3")]];
     OnDisconnect "bob"]
  ∧ roomMembers (state_of (step (Disconnected bob_socket "ping timeout" "t3") st_alice_bob))
      = {["r1" := ["alice"]]}
  ∧ connectionMap (state_of (step (Disconnected bob_socket "ping timeout" "t3") st_alice_bob))
      = {["alice" := alice_socket]}.
Proof. repeat split; vm_compute; reflexivity. Qed.

(** * Further properties of the server *)

(** ** [disconnectClient], which is also [server.disconnect] *)

Lemma disconnectClient_other st c c' :
  c' ≠ c → connectionMap (state_of (disconnectClient c st)) !! c' = connectionMap st !! c'.
Proof.
  intros Hne. destruct (connectionMap st !! c) as [old|] eqn:Hc.
  - rewrite (disconnectClient_some _ _ old) by done. simpl. by rewrite lookup_delete_ne.
  - by rewrite disconnectClient_none.
Qed.

(** X1: eviction is idempotent: after [disconnectClient cid] the cid is not in
    the directory, and a second call changes nothing and sends nothing. *)
Theorem evict_idempotent st c :
  connectionMap (state_of (disconnectClient c st)) !! c = None
  ∧ disconnectClient c (state_of (disconnectClient c st)) =
      ((), state_of (disconnectClient c st), []).
Proof.
  assert (connectionMap (state_of (disconnectClient c st)) !! c = None) as Hgone.
  { destruct (connectionMap st !! c) as [old|] eqn:Hc.
    - rewrite (disconnectClient_some _ _ old) by done. simpl. apply lookup_delete_eq.
    - by rewrite disconnectClient_none. }
  split; [done|]. by apply disconnectClient_none.
Qed.

(** X2: eviction touches nothing but the entry of its cid: the registry and
    the [room] fields are unchanged, the entries of the other cids are
    unchanged, only the evicted socket loses its [cid] field, and the only
    packet is the ['server-disconnect'] to that socket. *)
Theorem evict_frame st c :
  let r := disconnectClient c st in
  roomMembers (state_of r) = roomMembers st
  ∧ socket_room (state_of r) = socket_room st
  ∧ (∀ c', c' ≠ c → connectionMap (state_of r) !! c' = connectionMap st !! c')
  ∧ (∀ s, connectionMap st !! c ≠ Some s →
          socket_cid (state_of r) !! s = socket_cid st !! s)
  ∧ (∀ peer ev args, (peer, ev, args) ∈ packets (trace_of r) →
          connectionMap st !! c = Some peer ∧ ev = "server-disconnect" ∧ args = [])
  ∧ acks (trace_of r) = [] ∧ observed (trace_of r) = [].
Proof.
  intros r. subst r. destruct (connectionMap st !! c) as [old|] eqn:Hc.
  - rewrite (disconnectClient_some _ _ old) by done. simpl.
    split; [done|]. split; [done|]. split; [|split; [|split]].
    + intros c' Hne. by rewrite lookup_delete_ne.
    + intros s Hs. rewrite lookup_delete_ne; [done|]. congruence.
    + intros peer ev args Hin. apply list_elem_of_singleton in Hin. by injection Hin as -> -> ->.
    + done.
  - rewrite disconnectClient_none by done. simpl.
    repeat (split; [done|]). split; [|done].
    intros peer ev args Hin. by apply elem_of_nil in Hin.
Qed.

Lemma evict_frame_witness :
  "bob" ≠ "alice"
  ∧ connectionMap (state_of (disconnectClient "alice" st_alice_bob)) !! "bob" =
      Some bob_socket
  ∧ socket_cid (state_of (disconnectClient "alice" st_alice_bob)) !! bob_socket =
      Some "bob"
  ∧ roomMembers (state_of (disconnectClient "alice" st_alice_bob)) !! "r1" =
      Some ["alice"; "bob"].
Proof.
  assert ("bob" ≠ "alice") as Hne by discriminate.
  destruct (evict_frame st_alice_bob "alice") as (Hrooms & _ & Hdir & Hcid & _).
  split; [exact Hne|]. split; [|split].
  - rewrite (Hdir "bob" Hne). vm_compute. reflexivity.
  - rewrite (Hcid bob_socket) by (vm_compute; discriminate). vm_compute. reflexivity.
  - rewrite Hrooms. vm_compute. reflexivity.
Defined.

(** ** [emitChatEvent] and [server.send] *)

(** X3: [server.send] never changes the state; it fails exactly when the
    target is not a cid of the directory, and then it sends nothing; a target
    that is not a string, such as [undefined], is never reachable. *)
Theorem send_reads_only st target msg :
  state_of (send target msg st) = st
  ∧ (result_of (send target msg st) = None ↔ is_Some (map_get (connectionMap st) target))
  ∧ (result_of (send target msg st) ≠ None →
       result_of (send target msg st) = Some unreachable
       ∧ trace_of (send target msg st) = [])
  ∧ ((∀ c, target ≠ VStr c) → send target msg st = (Some unreachable, st, [])).
Proof.
  unfold send. destruct (map_get (connectionMap st) target) as [dest|] eqn:Hdest.
  - rewrite (emitChatEvent_some _ _ _ _ dest) by done. simpl.
    split; [done|]. split; [by split; eauto|]. split; [done|].
    intros Hstr. destruct target; try done. by destruct (Hstr s).
  - rewrite emitChatEvent_none by done. simpl.
    split; [done|]. split; [|done]. split; [done|]. by intros [? ?].
Qed.

Lemma send_reads_only_witness :
  (∀ c, VUndefined ≠ VStr c)
  ∧ send VUndefined (VStr "hi") st_alice_bob = (Some unreachable, st_alice_bob, []).
Proof.
  assert (∀ c, VUndefined ≠ VStr c) as Hstr by discriminate.
  split; [exact Hstr|].
  destruct (send_reads_only st_alice_bob VUndefined (VStr "hi")) as (_ & _ & _ & Hsend).
  exact (Hsend Hstr).
Defined.

(** ** The forward handler *)

Lemma acks_app t1 t2 : acks (t1 ++ t2) = acks t1 ++ acks t2.
Proof. apply omap_app. Qed.

Lemma acks_emits (f : socket → effect) (l : list socket) :
  (∀ r, match f r with Ack _ _ => False | _ => True end) → acks (f <$> l) = [].
Proof.
  intros Hf. induction l as [|r l IH]; [done|]. simpl.
  unfold acks in *. simpl. specialize (Hf r). by destruct (f r).
Qed.

(** X4: whatever the router does, a forward-message event is acknowledged
    exactly once, to its sender, provided the router itself acknowledges
    nothing; and the handler changes the state only by closing a sender
    without cid or through the router. *)
Theorem forward_acknowledged_once onmessage st s data :
  (∀ to d st0, acks (trace_of (onmessage to d st0)) = []) →
  (∃ args, acks (trace_of (onForward onmessage s data st)) = [(s, args)])
  ∧ (truthy (cid_value (socket_cid st !! s)) = true →
       ∃ to d, state_of (onForward onmessage s data st) = state_of (onmessage to d st)).
Proof.
  intros Hrouter. destruct (truthy (cid_value (socket_cid st !! s))) eqn:Hc.
  - apply truthy_cid_value_true in Hc as (c & Hc & Hne).
    rewrite (onForward_authenticated _ _ _ _ c) by done.
    specialize (Hrouter (get_prop data "to") (stamped c data) st).
    destruct (onmessage _ _ st) as [[outcome st'] t] eqn:Hm. simpl in *. split.
    + eexists. unfold acks in *. simpl. rewrite omap_app, Hrouter. reflexivity.
    + intros _. exists (get_prop data "to"), (stamped c data). by rewrite Hm.
  - rewrite onForward_unauthenticated by done. split; [by eexists|done].
Qed.

Lemma onmessage_send_acks to d st0 : acks (trace_of (onmessage_send to d st0)) = [].
Proof.
  unfold onmessage_send, send.
  destruct (map_get (connectionMap st0) to) as [dest|] eqn:Hdest.
  - by rewrite (emitChatEvent_some _ _ _ _ dest).
  - by rewrite emitChatEvent_none.
Qed.

Lemma forward_acknowledged_once_witness :
  (∀ to d st0, acks (trace_of (onmessage_send to d st0)) = [])
  ∧ ∃ args, acks (trace_of (onForward onmessage_send alice_socket
                              (list_to_map [("to", VStr "bob")]) st_alice_bob)) =
              [(alice_socket, args)].
Proof.
  split; [exact onmessage_send_acks|].
  apply (forward_acknowledged_once onmessage_send st_alice_bob alice_socket
           (list_to_map [("to", VStr "bob")]) onmessage_send_acks).
Defined.

(** X5: a message forwarded by an authenticated sender whose ['to'] field is
    missing, or is not a string, reaches nobody: the router is called with
    that destination, nothing is sent, the state is unchanged and the sender
    is acknowledged with ['2201']. *)
Theorem forward_without_destination st s data c :
  socket_cid st !! s = Some c → c ≠ "" →
  (∀ d, get_prop data "to" ≠ VStr d) →
  onForward onmessage_send s data st =
    ((), st, [OnMessage (get_prop data "to") (stamped c data); Ack s [VStr "2201"]]).
Proof.
  intros Hc Hne Hto. rewrite (onForward_routed _ _ _ c) by done.
  destruct (get_prop data "to") as [| | | |d| |] eqn:Hd; try done.
  by destruct (Hto d).
Qed.

Lemma forward_without_destination_witness :
  socket_cid st_alice_bob !! alice_socket = Some "alice" ∧ "alice" ≠ ""
  ∧ (∀ d, get_prop (list_to_map [("text", VStr "hi")]) "to" ≠ VStr d)
  ∧ onForward onmessage_send alice_socket (list_to_map [("text", VStr "hi")]) st_alice_bob =
      ((), st_alice_bob,
       [OnMessage VUndefined (list_to_map [("from", VStr "alice"); ("text", VStr "hi")]);
        Ack alice_socket [VStr "2201"]]).
Proof.
  assert (socket_cid st_alice_bob !! alice_socket = Some "alice") as Hc
    by (vm_compute; reflexivity).
  assert ("alice" ≠ "") as Hne by discriminate.
  assert (∀ d, get_prop (list_to_map [("text", VStr "hi")]) "to" ≠ VStr d) as Hto
    by (intros d; vm_compute; discriminate).
  repeat (split; [assumption|]).
  rewrite (forward_without_destination st_alice_bob alice_socket _ "alice" Hc Hne Hto).
  vm_compute. reflexivity.
Defined.

(** ** The authentication handler *)

Lemma acks_disconnectClient st c : acks (trace_of (disconnectClient c st)) = [].
Proof.
  destruct (connectionMap st !! c) as [old|] eqn:Hc.
  - by rewrite (disconnectClient_some _ _ old).
  - by rewrite disconnectClient_none.
Qed.

Lemma onAuthentication_acks st s result time_bj :
  acks (trace_of (onAuthentication s result time_bj st)) =
    [(s, [if truthy (error result) then obj [("error", error result)]
          else obj [("uid", VStr (cid result));
                    ("room", VStr (or_else (room result) "default-room"))]])].
Proof.
  destruct (truthy (error result)) eqn:Herr.
  - by rewrite onAuthentication_failure.
  - pose proof (onAuthentication_trace st s result time_bj Herr) as Htrace.
    simpl in Htrace. rewrite Htrace. clear Htrace.
    rewrite acks_app, acks_disconnectClient. simpl.
    change (acks (?e :: ?t)) with (acks ([e] ++ t)).
    rewrite !acks_app, !acks_emits by done. reflexivity.
Qed.

(** X6: a handshake is acknowledged exactly once, to its socket, whatever the
    state and whoever is evicted: with the error of the authenticator when
    there is one, else with the cid and the room in which the socket was
    put. *)
Theorem handshake_acknowledged_once st s result time_bj :
  ∃ reply, acks (trace_of (onAuthentication s result time_bj st)) = [(s, [VObj reply])]
           ∧ if truthy (error result)
             then reply !! "error" = Some (error result)
             else reply !! "uid" = Some (VStr (cid result))
                  ∧ reply !! "room" = Some (VStr (or_else (room result) "default-room")).
Proof.
  rewrite onAuthentication_acks. destruct (truthy (error result)).
  - eexists. split; [reflexivity|]. simpl. apply lookup_insert_eq.
  - eexists. split; [reflexivity|]. simpl. split.
    + apply lookup_insert_eq.
    + rewrite lookup_insert_ne by done. apply lookup_insert_eq.
Qed.

Lemma or_else_nonempty a d : d ≠ "" → or_else a d ≠ "".
Proof.
  intros Hd. unfold or_else. destruct a as [r|]; [|done].
  destruct (String.eqb r "") eqn:Hr; [done|]. by apply String.eqb_neq.
Qed.

(** X7: when the authenticator names no room, or the empty string, the socket
    is put into ['default-room']: its [room] field, the registry, the rooms
    of the transport and the acknowledgment all say so. *)
Theorem default_room st s result time_bj :
  truthy (error result) = false →
  room result = None ∨ room result = Some "" →
  let r := onAuthentication s result time_bj st in
  socket_room (state_of r) !! s = Some "default-room"
  ∧ cid result ∈ default [] (roomMembers (state_of r) !! "default-room")
  ∧ s ∈ sockets_in s "default-room" (state_of r)
  ∧ acks (trace_of r) =
      [(s, [obj [("uid", VStr (cid result)); ("room", VStr "default-room")]])].
Proof.
  intros Herr Hroom r. subst r.
  assert (or_else (room result) "default-room" = "default-room") as Hdefault
    by (by destruct Hroom as [-> | ->]).
  rewrite onAuthentication_acks, Herr, Hdefault.
  rewrite onAuthentication_state, Hdefault by done.
  split; [|split; [|split]].
  - unfold registered, join. unfold_m. simpl. apply lookup_insert_eq.
  - rewrite registered_roomMembers. simpl. apply set_add_elem.
  - apply registered_sockets_in.
  - done.
Qed.

Lemma default_room_witness :
  truthy (error (mkAuthResult VUndefined "carol" (Some ""))) = false
  ∧ (room (mkAuthResult VUndefined "carol" (Some "")) = None
     ∨ room (mkAuthResult VUndefined "carol" (Some "")) = Some "")
  ∧ roomMembers (state_of (onAuthentication bob_socket
                   (mkAuthResult VUndefined "carol" (Some "")) "t2" st_alice))
      !! "default-room" = Some ["carol"].
Proof.
  assert (truthy (error (mkAuthResult VUndefined "carol" (Some ""))) = false) as Herr
    by reflexivity.
  assert (room (mkAuthResult VUndefined "carol" (Some "")) = None
          ∨ room (mkAuthResult VUndefined "carol" (Some "")) = Some "") as Hroom
    by (by right).
  split; [exact Herr|]. split; [exact Hroom|].
  destruct (default_room st_alice bob_socket _ "t2" Herr Hroom) as (_ & Hin & _).
  destruct (roomMembers _ !! "default-room") as [l|] eqn:Hl; [|by apply elem_of_nil in Hin].
  vm_compute in Hl. by injection Hl as <-.
Defined.

(** X8: after a successful handshake the socket carries its cid and its room
    and is the connection of the cid; the entries of the other cids and the
    member lists of the other rooms are as before; and a message sent to the
    cid right away reaches this socket. *)
Theorem handshake_registers st s result time_bj :
  truthy (error result) = false →
  let st' := state_of (onAuthentication s result time_bj st) in
  let room := or_else (room result) "default-room" in
  connectionMap st' !! cid result = Some s
  ∧ socket_cid st' !! s = Some (cid result)
  ∧ socket_room st' !! s = Some room
  ∧ (∀ c, c ≠ cid result → connectionMap st' !! c = connectionMap st !! c)
  ∧ (∀ r, r ≠ room → roomMembers st' !! r = roomMembers st !! r)
  ∧ (∀ c, c ∈ default [] (roomMembers st !! room) →
          c ∈ default [] (roomMembers st' !! room))
  ∧ (∀ msg, send (VStr (cid result)) msg st' = (None, st', [Emit s "owt-message" [msg]])).
Proof.
  intros Herr st' room. subst st' room.
  rewrite onAuthentication_state by done.
  assert (connectionMap (registered s (cid result) (or_else (room result) "default-room")
            (state_of (disconnectClient (cid result) st))) !! cid result = Some s) as Hreg.
  { unfold registered, join. unfold_m. simpl. apply lookup_insert_eq. }
  split; [exact Hreg|]. split; [|split; [|split; [|split; [|split]]]].
  - unfold registered, join. unfold_m. simpl. apply lookup_insert_eq.
  - unfold registered, join. unfold_m. simpl. apply lookup_insert_eq.
  - intros c Hne. unfold registered, join. unfold_m. simpl.
    rewrite lookup_insert_ne by done. by apply disconnectClient_other.
  - intros r Hne. unfold registered. simpl.
    rewrite lookup_insert_ne by done. by rewrite disconnectClient_roomMembers.
  - intros c Hc. rewrite registered_roomMembers, disconnectClient_roomMembers. simpl.
    unfold set_add. case_decide; [done|]. apply elem_of_app. by left.
  - intros msg. unfold send. by apply emitChatEvent_some.
Qed.

Lemma handshake_registers_witness :
  truthy (error (accepted "bob" "r1")) = false
  ∧ connectionMap (state_of (onAuthentication bob_socket (accepted "bob" "r1") "t2" st_alice))
      !! "alice" = Some alice_socket
  ∧ send (VStr "bob") (VStr "hi")
      (state_of (onAuthentication bob_socket (accepted "bob" "r1") "t2" st_alice)) =
      (None, state_of (onAuthentication bob_socket (accepted "bob" "r1") "t2" st_alice),
       [Emit bob_socket "owt-message" [VStr "hi"]]).
Proof.
  assert (truthy (error (accepted "bob" "r1")) = false) as Herr by reflexivity.
  split; [exact Herr|].
  destruct (handshake_registers st_alice bob_socket (accepted "bob" "r1") "t2" Herr)
    as (_ & _ & _ & Hdir & _ & _ & Hsend).
  split; [|apply Hsend].
  rewrite (Hdir "alice") by discriminate. vm_compute. reflexivity.
Defined.

(** ** A handshake followed by a disconnect *)

Lemma set_delete_absent c l : c ∉ l → set_delete c l = l.
Proof.
  unfold set_delete. induction l as [|x l IH]; [done|].
  intros [Hx Hl]%not_elem_of_cons. rewrite filter_cons, decide_True by done.
  by rewrite IH.
Qed.

Lemma set_delete_set_add c l : c ∉ l → set_delete c (set_add c l) = l.
Proof.
  intros Hc. unfold set_add. rewrite decide_False by done.
  unfold set_delete. rewrite filter_app. fold (set_delete c l).
  rewrite set_delete_absent by done.
  rewrite filter_cons, decide_False by (by intros ?). by rewrite filter_nil, app_nil_r.
Qed.

(** X9: joining and leaving undo each other.  When a socket authenticates
    with a non-empty cid that is neither in the directory nor in the room, and
    then disconnects, the directory and the registry are what they were
    before the handshake; a room created by the handshake is deleted. *)
Theorem join_leave_round_trip st s result time_bj reason time_bj' :
  truthy (error result) = false →
  cid result ≠ "" →
  connectionMap st !! cid result = None →
  cid result ∉ default [] (roomMembers st !! or_else (room result) "default-room") →
  rooms_nonempty st →
  let st' := state_of (step (Disconnected s reason time_bj')
                         (state_of (onAuthentication s result time_bj st))) in
  connectionMap st' = connectionMap st ∧ roomMembers st' = roomMembers st.
Proof.
  intros Herr Hne Hdir Hmem Hrooms st'. subst st'.
  rewrite step_disconnected_state, onAuthentication_state by done.
  rewrite disconnectClient_none by done.
  set (r := or_else (room result) "default-room") in *.
  rewrite (onDisconnect_state _ _ _ _ (cid result));
    [|unfold registered, join, leave_all; unfold_m; simpl; apply lookup_insert_eq|done].
  unfold registered, join, leave_all, leave_room, leave. unfold_m. simpl.
  rewrite !lookup_insert_eq. simpl.
  assert (negb (String.eqb r "") = true) as ->.
  { apply negb_true_iff, String.eqb_neq. by apply or_else_nonempty. }
  rewrite set_delete_set_add by done.
  split; [by apply delete_insert_id|].
  destruct (roomMembers st !! r) as [members|] eqn:Hroom; simpl.
  - rewrite bool_decide_eq_false_2.
    + rewrite insert_insert_eq. by apply insert_id.
    + intros Hlen. apply (Hrooms r members Hroom). by destruct members.
  - by apply delete_insert_id.
Qed.

Lemma join_leave_round_trip_witness :
  truthy (error (accepted "bob" "r1")) = false
  ∧ cid (accepted "bob" "r1") ≠ ""
  ∧ connectionMap st_alice !! cid (accepted "bob" "r1") = None
  ∧ (cid (accepted "bob" "r1")
       ∉ default [] (roomMembers st_alice
                       !! or_else (room (accepted "bob" "r1")) "default-room"))
  ∧ rooms_nonempty st_alice
  ∧ roomMembers (state_of (step (Disconnected bob_socket "transport close" "t3")
                   (state_of (onAuthentication bob_socket (accepted "bob" "r1") "t2"
                                st_alice)))) = roomMembers st_alice.
Proof.
  assert (truthy (error (accepted "bob" "r1")) = false) as Herr by reflexivity.
  assert (cid (accepted "bob" "r1") ≠ "") as Hne by discriminate.
  assert (connectionMap st_alice !! cid (accepted "bob" "r1") = None) as Hdir
    by (vm_compute; reflexivity).
  assert (cid (accepted "bob" "r1")
            ∉ default [] (roomMembers st_alice
                            !! or_else (room (accepted "bob" "r1")) "default-room")) as Hmem.
  { assert (default [] (roomMembers st_alice
              !! or_else (room (accepted "bob" "r1")) "default-room") = ["alice"]) as ->
      by (vm_compute; reflexivity).
    intros [Heq|Hnil%elem_of_nil]%elem_of_cons; [discriminate|done]. }
  assert (rooms_nonempty st_alice) as Hrooms by exact (run_rooms_nonempty alice_joins).
  repeat (split; [assumption|]).
  apply (join_leave_round_trip st_alice bob_socket (accepted "bob" "r1") "t2"
           "transport close" "t3" Herr Hne Hdir Hmem Hrooms).
Defined.

Lemma registered_fields s c r st :
  connectionMap (registered s c r st) = <[c := s]> (connectionMap st)
  ∧ socket_cid (registered s c r st) = <[s := c]> (socket_cid st)
  ∧ socket_room (registered s c r st) = <[s := r]> (socket_room st).
Proof. by unfold registered, join; unfold_m. Qed.

(** X10: an empty cid is a cid for the directory and the registry, but not for
    the handlers.  When the authenticator answers the empty string, the socket
    is registered and joins its room, yet its messages are refused as
    unauthenticated, and its disconnect handler cleans nothing up: the entry
    and the membership stay. *)
Theorem empty_cid_is_stranded st s result time_bj :
  truthy (error result) = false →
  cid result = "" →
  let st' := state_of (onAuthentication s result time_bj st) in
  connectionMap st' !! "" = Some s
  ∧ "" ∈ default [] (roomMembers st' !! or_else (room result) "default-room")
  ∧ (∀ onmessage data,
       trace_of (onForward onmessage s data st') = [Ack s [VNum 2120]; Close s])
  ∧ (∀ reason time_bj', onDisconnect s reason time_bj' st' = ((), st', [])).
Proof.
  intros Herr Hcid st'. subst st'. rewrite onAuthentication_state by done.
  rewrite Hcid.
  destruct (registered_fields s "" (or_else (room result) "default-room")
              (state_of (disconnectClient "" st))) as (Hdir & Hfield & _).
  assert (truthy (cid_value (socket_cid (registered s "" (or_else (room result) "default-room")
            (state_of (disconnectClient "" st))) !! s)) = false) as Hfalsy.
  { by rewrite Hfield, lookup_insert_eq. }
  split; [by rewrite Hdir, lookup_insert_eq|]. split; [|split].
  - rewrite registered_roomMembers. simpl. apply set_add_elem.
  - intros onmessage data. by rewrite onForward_unauthenticated.
  - intros reason time_bj'. by apply onDisconnect_unauthenticated.
Qed.

Lemma empty_cid_is_stranded_witness :
  truthy (error (accepted "" "r1")) = false
  ∧ cid (accepted "" "r1") = ""
  ∧ connectionMap (state_of (step (Disconnected bob_socket "transport close" "t3")
      (state_of (onAuthentication bob_socket (accepted "" "r1") "t2" st_alice))))
      !! "" = Some bob_socket.
Proof.
  assert (truthy (error (accepted "" "r1")) = false) as Herr by reflexivity.
  assert (cid (accepted "" "r1") = "") as Hcid by reflexivity.
  split; [exact Herr|]. split; [exact Hcid|].
  destruct (empty_cid_is_stranded st_alice bob_socket (accepted "" "r1") "t2" Herr Hcid)
    as (Hdir & _ & _ & _).
  rewrite <- Hdir. vm_compute. reflexivity.
Defined.

(** X11: a second handshake on a socket that is already authenticated rebinds
    it without leaving: the socket is then the connection of both cids, and
    its disconnect handler removes only the entry of the last one. *)
Theorem rebinding_leaves_stale_entry st s a result time_bj reason time_bj' :
  connectionMap st !! a = Some s →
  truthy (error result) = false →
  cid result ≠ a → cid result ≠ "" →
  let st1 := state_of (onAuthentication s result time_bj st) in
  let st2 := state_of (onDisconnect s reason time_bj' st1) in
  connectionMap st1 !! a = Some s
  ∧ connectionMap st1 !! cid result = Some s
  ∧ connectionMap st2 !! a = Some s
  ∧ connectionMap st2 !! cid result = None.
Proof.
  intros Ha Herr Hne Hne' st1 st2. subst st1 st2.
  assert (socket_cid (state_of (onAuthentication s result time_bj st)) !! s =
            Some (cid result)) as Hcid.
  { rewrite onAuthentication_state by done.
    destruct (registered_fields s (cid result) (or_else (room result) "default-room")
                (state_of (disconnectClient (cid result) st))) as (_ & -> & _).
    apply lookup_insert_eq. }
  rewrite (onDisconnect_state _ _ _ _ (cid result)) by done. simpl.
  rewrite lookup_delete_eq, lookup_delete_ne by done.
  rewrite onAuthentication_state by done.
  destruct (registered_fields s (cid result) (or_else (room result) "default-room")
              (state_of (disconnectClient (cid result) st))) as (-> & _ & _).
  rewrite lookup_insert_eq, lookup_insert_ne by done.
  rewrite disconnectClient_other by done. done.
Qed.

Lemma rebinding_leaves_stale_entry_witness :
  connectionMap st_alice !! "alice" = Some alice_socket
  ∧ truthy (error (accepted "bob" "r2")) = false
  ∧ cid (accepted "bob" "r2") ≠ "alice" ∧ cid (accepted "bob" "r2") ≠ ""
  ∧ connectionMap (state_of (onDisconnect alice_socket "transport close" "t3"
      (state_of (onAuthentication alice_socket (accepted "bob" "r2") "t2" st_alice))))
      !! "alice" = Some alice_socket.
Proof.
  assert (connectionMap st_alice !! "alice" = Some alice_socket) as Ha
    by (vm_compute; reflexivity).
  assert (truthy (error (accepted "bob" "r2")) = false) as Herr by reflexivity.
  assert (cid (accepted "bob" "r2") ≠ "alice") as Hne by discriminate.
  assert (cid (accepted "bob" "r2") ≠ "") as Hne' by discriminate.
  repeat (split; [assumption|]).
  apply (rebinding_leaves_stale_entry st_alice alice_socket "alice" (accepted "bob" "r2")
           "t2" "transport close" "t3" Ha Herr Hne Hne').
Defined.

(** ** The disconnect handler *)

(** X12: the disconnect handler cleans up by cid, not by socket: whichever
    socket holds the entry of the handler's cid, the entry is deleted, and the
    cid leaves the room of the handler's socket; the other entries stay. *)
Theorem disconnect_deletes_by_cid st s c reason time_bj :
  socket_cid st !! s = Some c → c ≠ "" →
  let st' := state_of (onDisconnect s reason time_bj st) in
  connectionMap st' !! c = None
  ∧ (∀ c', c' ≠ c → connectionMap st' !! c' = connectionMap st !! c')
  ∧ (∀ r, socket_room st !! s = Some r → r ≠ "" →
          c ∉ default [] (roomMembers st' !! r)).
Proof.
  intros Hc Hne st'. subst st'. rewrite (onDisconnect_state _ _ _ _ c) by done. simpl.
  split; [apply lookup_delete_eq|]. split.
  - intros c' Hne'. by rewrite lookup_delete_ne.
  - intros r Hr Hr'. rewrite Hr. unfold leave_room, leave. simpl.
    assert (negb (String.eqb r "") = true) as ->
      by (by apply negb_true_iff, String.eqb_neq).
    destruct (roomMembers st !! r) as [members|] eqn:Hroom.
    + case_bool_decide.
      * rewrite lookup_delete_eq. simpl. apply not_elem_of_nil.
      * rewrite lookup_insert_eq. simpl. unfold set_delete.
        rewrite list_elem_of_filter. by intros [? _].
    + rewrite Hroom. simpl. apply not_elem_of_nil.
Qed.

(** Alice's first connection is lost and she signs in again from the second
    socket; a second disconnect event of the first socket then deletes the
    entry of the second one. *)
Lemma disconnect_deletes_by_cid_witness :
  reachable (state_of (run alice_returns init))
  ∧ connectionMap (state_of (run alice_returns init)) !! "alice" = Some bob_socket
  ∧ socket_cid (state_of (run alice_returns init)) !! alice_socket = Some "alice"
  ∧ "alice" ≠ ""
  ∧ connectionMap (state_of (onDisconnect alice_socket "transport close" "t4"
                               (state_of (run alice_returns init)))) !! "alice" = None.
Proof.
  assert (socket_cid (state_of (run alice_returns init)) !! alice_socket = Some "alice")
    as Hc by (vm_compute; reflexivity).
  assert ("alice" ≠ "") as Hne by discriminate.
  split; [|split; [vm_compute; reflexivity|split; [exact Hc|split; [exact Hne|]]]].
  - apply reachable_run; [constructor|]. vm_compute. repeat split.
  - apply (disconnect_deletes_by_cid _ alice_socket "alice" "transport close" "t4" Hc Hne).
Defined.

Lemma onDisconnect_trace st s reason time_bj c :
  socket_cid st !! s = Some c → c ≠ "" →
  trace_of (onDisconnect s reason time_bj st) =
    match socket_room st !! s with
    | Some r =>
        if negb (String.eqb r "") then
          match roomMembers st !! r with
          | Some members =>
              (λ p, Emit p "room-event" [leaveMsg c (set_delete c members) time_bj]) <$>
                filter (λ p, p ≠ s) (sockets_in s r st)
          | None => []
          end
        else []
    | None => []
    end ++ [OnDisconnect c].
Proof.
  intros Hc Hne. unfold onDisconnect, emit_to, leaveMsg. unfold_m. simpl. rewrite Hc.
  rewrite truthy_cid_value_some by done. simpl.
  case_bool_decide as Hreg; simpl.
  all: destruct (socket_room st !! s) as [room|] eqn:Hroom; simpl.
  all: try destruct (negb (String.eqb room "")); simpl.
  all: try (destruct (roomMembers st !! room) as [members|] eqn:Hm; simpl).
  all: try (rewrite lookup_alter_eq, Hm; simpl; case_bool_decide; simpl).
  all: rewrite ?bool_decide_eq_true_2 by done; rewrite ?bool_decide_eq_false_2 by done.
  all: try done.
  all: try (rewrite bool_decide_eq_false_2 by (rewrite ?Hm; by intros [? ?]); done).
Qed.

Lemma packets_emits ev args (l : list socket) :
  packets ((λ p, Emit p ev args) <$> l) = (λ p, (p, ev, args)) <$> l.
Proof. induction l as [|p l IH]; [done|]. unfold packets in *. simpl. by f_equal. Qed.

Lemma observed_emits ev args (l : list socket) :
  observed ((λ p, Emit p ev args) <$> l) = [].
Proof. induction l as [|p l IH]; [done|]. unfold observed in *. by simpl. Qed.

Lemma acks_emits_to ev args (l : list socket) :
  acks ((λ p, Emit p ev args) <$> l) = [].
Proof. by apply acks_emits. Qed.

(** X13: the disconnect handler of a socket with a cid calls the observer
    exactly once, with that cid and as its last effect, whether or not the cid
    is still in the directory or in a room; it acknowledges nothing; and each
    packet it sends is a ['user-left'] event to another socket of the room of
    the leaving socket, with the members that remain, the leaver not among
    them. *)
Theorem disconnect_notifies st s reason time_bj c :
  socket_cid st !! s = Some c → c ≠ "" →
  let t := trace_of (onDisconnect s reason time_bj st) in
  observed t = [c] ∧ last t = Some (OnDisconnect c) ∧ acks t = []
  ∧ ∀ peer ev args, (peer, ev, args) ∈ packets t →
      peer ≠ s ∧ ev = "room-event"
      ∧ ∃ r members,
          socket_room st !! s = Some r ∧ roomMembers st !! r = Some members
          ∧ peer ∈ sockets_in s r st
          ∧ args = [leaveMsg c (set_delete c members) time_bj]
          ∧ c ∉ set_delete c members.
Proof.
  intros Hc Hne t. subst t. rewrite (onDisconnect_trace _ _ _ _ c) by done.
  split; [|split; [|split]].
  - unfold observed. rewrite omap_app.
    destruct (socket_room st !! s) as [r|]; [|done].
    destruct (negb (String.eqb r "")); [|done].
    destruct (roomMembers st !! r); [|done].
    fold (observed ((λ p, Emit p "room-event"
            [leaveMsg c (set_delete c l) time_bj]) <$> filter (λ p, p ≠ s) (sockets_in s r st))).
    by rewrite observed_emits.
  - apply last_snoc.
  - rewrite acks_app.
    destruct (socket_room st !! s) as [r|]; [|done].
    destruct (negb (String.eqb r "")); [|done].
    destruct (roomMembers st !! r); [|done].
    by rewrite acks_emits_to.
  - intros peer ev args. unfold packets. rewrite omap_app. simpl. rewrite app_nil_r.
    destruct (socket_room st !! s) as [r|]; [|by intros ?%elem_of_nil].
    destruct (negb (String.eqb r "")); [|by intros ?%elem_of_nil].
    destruct (roomMembers st !! r) as [members|] eqn:Hroom; [|by intros ?%elem_of_nil].
    fold (packets ((λ p, Emit p "room-event"
            [leaveMsg c (set_delete c members) time_bj]) <$>
              filter (λ p, p ≠ s) (sockets_in s r st))).
    rewrite packets_emits.
    intros (p & [= -> -> ->] & [Hp Hin]%list_elem_of_filter)%list_elem_of_fmap.
    split; [done|]. split; [done|]. exists r, members.
    repeat (split; [done|]). unfold set_delete. rewrite list_elem_of_filter. by intros [? _].
Qed.

(** Bob leaves the room in which alice is: alice alone is told, the users are
    alice alone, and the observer hears of bob. *)
Lemma disconnect_notifies_witness :
  socket_cid (state_of (leave_all bob_socket st_alice_bob)) !! bob_socket = Some "bob"
  ∧ "bob" ≠ ""
  ∧ packets (trace_of (onDisconnect bob_socket "ping timeout" "t3"
                         (state_of (leave_all bob_socket st_alice_bob)))) =
      [(alice_socket, "room-event", [leaveMsg "bob" ["alice"] "t3"])]
  ∧ observed (trace_of (onDisconnect bob_socket "ping timeout" "t3"
                          (state_of (leave_all bob_socket st_alice_bob)))) = ["bob"].
Proof.
  assert (socket_cid (state_of (leave_all bob_socket st_alice_bob)) !! bob_socket = Some "bob")
    as Hc by (vm_compute; reflexivity).
  assert ("bob" ≠ "") as Hne by discriminate.
  split; [exact Hc|]. split; [exact Hne|].
  destruct (disconnect_notifies _ bob_socket "ping timeout" "t3" "bob" Hc Hne)
    as (Hobserved & _).
  split; [vm_compute; reflexivity|exact Hobserved].
Defined.

(** ** [onConnection] *)

Lemma onConnection_cid st s c :
  socket_cid st !! s = Some c → c ≠ "" →
  onConnection s st =
    ((), set_connectionMap <[c := s]> (state_of (disconnectClient c st)),
     trace_of (disconnectClient c st)).
Proof.
  intros Hc Hne. unfold onConnection. unfold_m. simpl. rewrite Hc.
  rewrite truthy_cid_value_some by done. simpl.
  destruct (disconnectClient c st) as [[[] st1] t1]. simpl. by rewrite app_nil_r.
Qed.

(** X14: a socket that connects already carrying a cid takes the cid over: the
    previous connection of the cid, if any, is evicted, the socket becomes the
    connection of the cid, and the registry is not touched, so the cid joins
    no room; nothing is acknowledged.  A socket without cid changes nothing. *)
Theorem connection_with_cid st s :
  (∀ c, socket_cid st !! s = Some c → c ≠ "" →
     let r := onConnection s st in
     connectionMap (state_of r) !! c = Some s
     ∧ (∀ c', c' ≠ c → connectionMap (state_of r) !! c' = connectionMap st !! c')
     ∧ roomMembers (state_of r) = roomMembers st
     ∧ socket_room (state_of r) = socket_room st
     ∧ trace_of r = trace_of (disconnectClient c st))
  ∧ (truthy (cid_value (socket_cid st !! s)) = false → onConnection s st = ((), st, [])).
Proof.
  split.
  - intros c Hc Hne r. subst r. rewrite (onConnection_cid _ _ c) by done. simpl.
    split; [apply lookup_insert_eq|]. split; [|split; [|split]].
    + intros c' Hne'. rewrite lookup_insert_ne by done. by apply disconnectClient_other.
    + apply disconnectClient_roomMembers.
    + destruct (connectionMap st !! c) as [old|] eqn:Hold.
      * by rewrite (disconnectClient_some _ _ old).
      * by rewrite disconnectClient_none.
    + done.
  - intros Hc. unfold onConnection. unfold_m. simpl. by rewrite Hc.
Qed.

(** Bob's socket connects again while it carries his cid. *)
Lemma connection_with_cid_witness :
  socket_cid st_alice_bob !! bob_socket = Some "bob" ∧ "bob" ≠ ""
  ∧ connectionMap (state_of (onConnection bob_socket st_alice_bob)) !! "bob" = Some bob_socket
  ∧ roomMembers (state_of (onConnection bob_socket st_alice_bob)) = roomMembers st_alice_bob.
Proof.
  assert (socket_cid st_alice_bob !! bob_socket = Some "bob") as Hc
    by (vm_compute; reflexivity).
  assert ("bob" ≠ "") as Hne by discriminate.
  split; [exact Hc|]. split; [exact Hne|].
  destruct (connection_with_cid st_alice_bob bob_socket) as [Hcid _].
  destruct (Hcid "bob" Hc Hne) as (Hdir & _ & Hrooms & _).
  by split.
Defined.

(** ** Invariants of the runs *)

(** X15: in every state that the server reaches while each connection
    authenticates at most once, a connection is registered under at most one
    cid, the cid of its [cid] field. *)
Theorem directory_injective st c1 c2 s :
  reachable st →
  connectionMap st !! c1 = Some s →
  connectionMap st !! c2 = Some s →
  c1 = c2 ∧ socket_cid st !! s = Some c1.
Proof.
  intros Hst%reachable_consistent H1 H2.
  pose proof (Hst _ _ H1) as Hc1. pose proof (Hst _ _ H2) as Hc2.
  split; [congruence|done].
Qed.

Lemma reachable_alice_bob : reachable st_alice_bob.
Proof.
  apply (reachable_run bob_joins); [apply (reachable_run alice_joins); [constructor|]|];
    vm_compute; repeat split.
Qed.

Lemma directory_injective_witness :
  reachable st_alice_bob
  ∧ connectionMap st_alice_bob !! "bob" = Some bob_socket
  ∧ socket_cid st_alice_bob !! bob_socket = Some "bob".
Proof.
  assert (connectionMap st_alice_bob !! "bob" = Some bob_socket) as Hbob
    by (vm_compute; reflexivity).
  split; [exact reachable_alice_bob|]. split; [exact Hbob|].
  apply (directory_injective st_alice_bob "bob" "bob" bob_socket
           reachable_alice_bob Hbob Hbob).
Defined.

Lemma leave_room_keeps ro c c' r (m : gmap string (list string)) :
  c' ≠ c → c' ∈ default [] (m !! r) → c' ∈ default [] (leave_room ro c m !! r).
Proof.
  intros Hne Hin. unfold leave_room, leave.
  destruct (truthy (cid_value ro)); [|done].
  destruct (m !! default "" ro) as [members|] eqn:Hroom; [|done].
  destruct (decide (r = default "" ro)) as [->|Hr].
  - rewrite Hroom in Hin. simpl in Hin.
    assert (c' ∈ set_delete c members) as Hstays
      by (unfold set_delete; by apply list_elem_of_filter).
    rewrite bool_decide_eq_false_2.
    + by rewrite lookup_insert_eq.
    + intros Hlen. destruct (set_delete c members); [by apply elem_of_nil in Hstays|done].
  - case_bool_decide.
    + by rewrite lookup_delete_ne.
    + by rewrite lookup_insert_ne.
Qed.

Lemma disconnectClient_in_rooms st c :
  directory_in_rooms st → directory_in_rooms (state_of (disconnectClient c st)).
Proof.
  intros Hst c' s'. destruct (connectionMap st !! c) as [old|] eqn:Hc.
  - rewrite (disconnectClient_some _ _ old) by done. simpl.
    intros [_ Hc']%lookup_delete_Some. by apply Hst.
  - rewrite disconnectClient_none by done. apply Hst.
Qed.

Lemma step_forwarded_fields st s data :
  socket_room (state_of (step (Forwarded s data) st)) = socket_room st
  ∧ (∀ k, default [] (adapter (state_of (step (Forwarded s data) st)) !! k)
            ⊆ default [] (adapter st !! k)).
Proof.
  simpl. destruct (truthy (cid_value (socket_cid st !! s))) eqn:Hc.
  - apply truthy_cid_value_true in Hc as (c & Hc & Hne).
    rewrite (onForward_routed _ _ _ c) by done.
    by destruct (map_get _ _).
  - rewrite onForward_unauthenticated by done. simpl. split; [done|].
    intros k p. rewrite lookup_fmap. destruct (adapter st !! k); [|done]. simpl.
    by intros [_ ?]%list_elem_of_filter.
Qed.

Lemma step_in_rooms st ev :
  directory_consistent st → directory_in_rooms st → permitted st ev →
  directory_in_rooms (state_of (step ev st)).
Proof.
  intros Hcons Hst Hev.
  destruct ev as [s|s result time_bj|s reason time_bj|s data|c m|c].
  - simpl in *. by rewrite onConnection_new.
  - simpl in *. destruct (truthy (error result)) eqn:Herr.
    + by rewrite onAuthentication_failure.
    + rewrite onAuthentication_state by done.
      set (st1 := state_of (disconnectClient (cid result) st)).
      assert (directory_in_rooms st1) as Hst1 by by apply disconnectClient_in_rooms.
      assert (directory_consistent st1) as Hcons1 by by apply disconnectClient_consistent.
      assert (socket_cid st1 !! s = None) as Hs
        by by apply disconnectClient_socket_cid_none.
      intros c' s'.
      destruct (registered_fields s (cid result) (or_else (room result) "default-room") st1)
        as (-> & _ & ->).
      intros [[<- <-]|[Hne Hc']]%lookup_insert_Some.
      * exists (or_else (room result) "default-room").
        rewrite lookup_insert_eq, registered_roomMembers. split; [done|]. apply set_add_elem.
      * assert (s' ≠ s) as Hs' by (intros ->; apply Hcons1 in Hc'; congruence).
        destruct (Hst1 _ _ Hc') as (r & Hr & Hin). exists r.
        rewrite lookup_insert_ne by done. split; [done|].
        unfold registered. simpl.
        destruct (decide (r = or_else (room result) "default-room")) as [->|Hr'].
        -- rewrite lookup_insert_eq. simpl. unfold set_add.
           case_decide; [done|]. apply elem_of_app. by left.
        -- by rewrite lookup_insert_ne.
  - rewrite step_disconnected_state.
    set (st1 := state_of (leave_all s st)).
    assert (directory_in_rooms st1) as Hst1 by done.
    destruct (truthy (cid_value (socket_cid st1 !! s))) eqn:Hc.
    + apply truthy_cid_value_true in Hc as (c & Hc & Hne).
      rewrite (onDisconnect_state _ _ _ _ c) by done.
      intros c' s'. simpl. intros [Hne' Hc']%lookup_delete_Some.
      destruct (Hst1 _ _ Hc') as (r & Hr & Hin). exists r. split; [done|].
      by apply leave_room_keeps.
    + by rewrite onDisconnect_unauthenticated.
  - destruct (step_forwarded_state st s data) as (Hdir & Hrooms & _).
    destruct (step_forwarded_fields st s data) as (Hroom & _).
    intros c' s'. rewrite Hdir, Hrooms, Hroom. apply Hst.
  - by rewrite step_send_state.
  - by apply disconnectClient_in_rooms.
Qed.

Lemma reachable_in_rooms st : reachable st → directory_in_rooms st.
Proof.
  induction 1 as [|st ev Hst IH Hev].
  - intros c s. simpl. by rewrite lookup_empty.
  - apply step_in_rooms; [by apply reachable_consistent|done|done].
Qed.

(** X16: in every state that the server reaches while each connection
    authenticates at most once, evictions included, every cid of the directory
    is a member of the room of its connection: the registry never lacks a
    live cid. *)
Theorem live_cid_is_member st c s :
  reachable st →
  connectionMap st !! c = Some s →
  ∃ r members, socket_room st !! s = Some r
               ∧ roomMembers st !! r = Some members ∧ c ∈ members.
Proof.
  intros Hst Hc. destruct (reachable_in_rooms st Hst c s Hc) as (r & Hr & Hin).
  exists r. destruct (roomMembers st !! r) as [members|]; [by eauto|].
  by apply elem_of_nil in Hin.
Qed.

Lemma live_cid_is_member_witness :
  reachable (state_of (run alice_moves init))
  ∧ connectionMap (state_of (run alice_moves init)) !! "alice" = Some bob_socket
  ∧ ∃ r members, socket_room (state_of (run alice_moves init)) !! bob_socket = Some r
                 ∧ roomMembers (state_of (run alice_moves init)) !! r = Some members
                 ∧ "alice" ∈ members.
Proof.
  assert (reachable (state_of (run alice_moves init))) as Hst
    by (apply reachable_run; [constructor|]; vm_compute; repeat split).
  assert (connectionMap (state_of (run alice_moves init)) !! "alice" = Some bob_socket)
    as Hc by (vm_compute; reflexivity).
  split; [exact Hst|]. split; [exact Hc|].
  apply (live_cid_is_member _ "alice" bob_socket Hst Hc).
Defined.

(** X17: on every run of the server, whatever the events and their order, no
    room of the registry is empty: the room of the last member that leaves is
    deleted, and a handshake creates a room with its first member. *)
Theorem no_empty_room evs room members :
  roomMembers (state_of (run evs init)) !! room = Some members → members ≠ [].
Proof.
  assert (∀ st, rooms_nonempty st → rooms_nonempty (state_of (run evs st))) as Hrun.
  { induction evs as [|ev evs IH]; intros st Hst; [done|].
    rewrite run_cons_state. by apply IH, step_rooms_nonempty. }
  apply Hrun. intros r l. simpl. by rewrite lookup_empty.
Qed.

Lemma no_empty_room_witness :
  roomMembers (state_of (run (alice_joins ++ bob_joins ++
                  [Disconnected alice_socket "transport close" "t3"]) init)) !! "r1" =
    Some ["bob"]
  ∧ ["bob"] ≠ []
  ∧ roomMembers (state_of (run (alice_joins ++
                  [Disconnected alice_socket "transport close" "t3"]) init)) !! "r1" = None.
Proof.
  assert (roomMembers (state_of (run (alice_joins ++ bob_joins ++
            [Disconnected alice_socket "transport close" "t3"]) init)) !! "r1" =
          Some ["bob"]) as Hroom by (vm_compute; reflexivity).
  split; [exact Hroom|]. split; [exact (no_empty_room _ _ _ Hroom)|].
  vm_compute. reflexivity.
Defined.

(** ** Broadcasts and listeners *)

Lemma leave_all_adapter_wf st s :
  adapter_wf st → adapter_wf (state_of (leave_all s st)).
Proof.
  intros Hst l r p. unfold leave_all. unfold_m. simpl. rewrite lookup_fmap.
  destruct (adapter st !! (l, r)) as [ps|] eqn:Hps; simpl; [|by intros ?%elem_of_nil].
  intros [_ Hp]%list_elem_of_filter. apply (Hst l r). by rewrite Hps.
Qed.

Lemma disconnectClient_adapter_wf st c :
  adapter_wf st → adapter_wf (state_of (disconnectClient c st)).
Proof.
  intros Hst. destruct (connectionMap st !! c) as [old|] eqn:Hc.
  - rewrite (disconnectClient_some _ _ old) by done.
    apply (leave_all_adapter_wf _ old) in Hst. exact Hst.
  - by rewrite disconnectClient_none.
Qed.

Lemma registered_adapter_wf s c r st :
  adapter_wf st → adapter_wf (registered s c r st).
Proof.
  intros Hst l r' p. unfold registered, join, sockets_in. unfold_m. simpl.
  destruct (decide ((server s, r) = (l, r'))) as [[= <- <-]|Hne].
  - rewrite lookup_insert_eq. simpl. case_decide.
    + apply Hst.
    + intros [Hp| ->%list_elem_of_singleton]%elem_of_app; [by apply (Hst _ r)|done].
  - rewrite lookup_insert_ne by done. apply Hst.
Qed.

Lemma step_adapter_wf st ev : adapter_wf st → adapter_wf (state_of (step ev st)).
Proof.
  intros Hst. destruct ev as [s|s result time_bj|s reason time_bj|s data|c m|c].
  - simpl. destruct (truthy (cid_value (socket_cid st !! s))) eqn:Hc.
    + apply truthy_cid_value_true in Hc as (c & Hc & Hne).
      rewrite (onConnection_cid _ _ c) by done.
      by apply (disconnectClient_adapter_wf _ c) in Hst.
    + unfold onConnection. unfold_m. simpl. by rewrite Hc.
  - simpl. destruct (truthy (error result)) eqn:Herr.
    + rewrite onAuthentication_failure by done. by apply (leave_all_adapter_wf _ s) in Hst.
    + rewrite onAuthentication_state by done.
      by apply registered_adapter_wf, disconnectClient_adapter_wf.
  - rewrite step_disconnected_state.
    intros l r p.
    destruct (onDisconnect_fields (state_of (leave_all s st)) s reason time_bj)
      as (_ & _ & ->).
    by apply leave_all_adapter_wf.
  - intros l r p Hp. destruct (step_forwarded_fields st s data) as (_ & Hsub).
    apply (Hst l r). by apply Hsub.
  - by rewrite step_send_state.
  - by apply disconnectClient_adapter_wf.
Qed.

Lemma run_adapter_wf evs : adapter_wf (state_of (run evs init)).
Proof.
  assert (∀ st, adapter_wf st → adapter_wf (state_of (run evs st))) as Hrun.
  { induction evs as [|ev evs IH]; intros st Hst; [done|].
    rewrite run_cons_state. by apply IH, step_adapter_wf. }
  apply Hrun. intros l r p. simpl. rewrite lookup_empty. by intros ?%elem_of_nil.
Qed.

Lemma packets_app t1 t2 : packets (t1 ++ t2) = packets t1 ++ packets t2.
Proof. apply omap_app. Qed.

(** X18: room events never cross listeners.  On every run, the packets of a
    handshake other than the ['server-disconnect'] of an eviction, and the
    packets of a disconnect handler, go to sockets of the listener of the
    handler's socket: a member that is connected to the other listener is in
    the member lists but is told nothing. *)
Theorem broadcasts_stay_on_listener evs s result time_bj reason :
  let st := state_of (run evs init) in
  (∀ peer ev args,
     (peer, ev, args) ∈ packets (trace_of (onAuthentication s result time_bj st)) →
     ev ≠ "server-disconnect" → server peer = server s)
  ∧ (∀ peer ev args,
       (peer, ev, args) ∈ packets (trace_of (onDisconnect s reason time_bj st)) →
       server peer = server s).
Proof.
  intros st. split.
  - intros peer ev args. destruct (truthy (error result)) eqn:Herr.
    + rewrite onAuthentication_failure by done. by intros ?%elem_of_nil.
    + pose proof (onAuthentication_trace st s result time_bj Herr) as Htrace.
      simpl in Htrace. rewrite Htrace. clear Htrace.
      assert (adapter_wf (state_of (onAuthentication s result time_bj st))) as Hwf
        by apply (step_adapter_wf st (Authentication s result time_bj)), run_adapter_wf.
      rewrite packets_app.
      change (packets (?e :: ?t)) with (packets ([e] ++ t)).
      rewrite !packets_app, !packets_emits.
      intros [Hevict|[Hauth|[Hlist|[Hevent|Hack]%elem_of_app]%elem_of_app]%elem_of_app]%elem_of_app Hev.
      * exfalso. apply Hev.
        destruct (connectionMap st !! cid result) as [old|] eqn:Hold.
        -- rewrite (disconnectClient_some _ _ old) in Hevict by done.
           apply list_elem_of_singleton in Hevict. by injection Hevict.
        -- rewrite disconnectClient_none in Hevict by done. by apply elem_of_nil in Hevict.
      * apply list_elem_of_singleton in Hauth. by injection Hauth as ->.
      * apply list_elem_of_fmap in Hlist as (p & [= -> _ _] & Hp). by apply Hwf in Hp.
      * apply list_elem_of_fmap in Hevent as (p & [= -> _ _] & Hp). by apply Hwf in Hp.
      * by apply elem_of_nil in Hack.
  - intros peer ev args. destruct (truthy (cid_value (socket_cid st !! s))) eqn:Hc.
    + apply truthy_cid_value_true in Hc as (c & Hc & Hne).
      rewrite (onDisconnect_trace _ _ _ _ c), packets_app by done.
      intros [Hin|Hin]%elem_of_app; [|by apply elem_of_nil in Hin].
      destruct (socket_room st !! s) as [r|]; [|by apply elem_of_nil in Hin].
      destruct (negb (String.eqb r "")); [|by apply elem_of_nil in Hin].
      destruct (roomMembers st !! r) as [members|]; [|by apply elem_of_nil in Hin].
      rewrite packets_emits in Hin.
      apply list_elem_of_fmap in Hin as (p & [= -> _ _] & [_ Hp]%list_elem_of_filter).
      by apply (run_adapter_wf evs) in Hp.
    + rewrite onDisconnect_unauthenticated by done. by intros ?%elem_of_nil.
Qed.

(** Alice is connected to the plain listener; bob joins her room through the
    secure one: alice is in the list that bob receives, and receives
    nothing. *)
Lemma broadcasts_stay_on_listener_witness :
  packets (trace_of (onAuthentication (Socket secureServer 2) (accepted "bob" "r1") "t2"
                       (state_of (run alice_joins init)))) =
    [(Socket secureServer 2, "server-authenticated", [obj [("uid", VStr "bob")]]);
     (Socket secureServer 2, "room-list", [strings ["alice"; "bob"]]);
     (Socket secureServer 2, "room-event", [joinMsg "bob" ["alice"] "t2"])]
  ∧ ∀ peer ev args,
      (peer, ev, args) ∈ packets (trace_of (onAuthentication (Socket secureServer 2)
                                    (accepted "bob" "r1") "t2"
                                    (state_of (run alice_joins init)))) →
      ev ≠ "server-disconnect" → server peer = secureServer.
Proof.
  split; [vm_compute; reflexivity|].
  apply (broadcasts_stay_on_listener alice_joins (Socket secureServer 2)
           (accepted "bob" "r1") "t2" "").
Defined.

(** ** The server with rooms and the server without *)

Lemma plain_onAuthentication_success st s result :
  truthy (error result) = false →
  Plain.onAuthentication s result st =
    ((), set_connectionMap <[cid result := s]>
           (set_socket_cid <[s := cid result]>
              (state_of (disconnectClient (cid result) st))),
     trace_of (disconnectClient (cid result) st) ++
     [Emit s "server-authenticated" [obj [("uid", VStr (cid result))]];
      Ack s [obj [("uid", VStr (cid result))]]]).
Proof.
  intros Herr. unfold Plain.onAuthentication. rewrite Herr. unfold_m. simpl.
  by destruct (disconnectClient (cid result) st) as [[[] st1] t1].
Qed.

Lemma plain_onAuthentication_failure st s result :
  truthy (error result) = true →
  Plain.onAuthentication s result st =
    ((), set_adapter (fmap (filter (λ r, r ≠ s))) st,
     [Ack s [obj [("error", error result)]]; Close s]).
Proof.
  intros Herr. unfold Plain.onAuthentication. rewrite Herr.
  unfold disconnect, leave_all. by unfold_m.
Qed.

Lemma plain_onDisconnect_cid st s reason c :
  socket_cid st !! s = Some c → c ≠ "" →
  Plain.onDisconnect s reason st = ((), set_connectionMap (delete c) st, [OnDisconnect c]).
Proof.
  intros Hc Hne. unfold Plain.onDisconnect. unfold_m. simpl. rewrite Hc.
  rewrite truthy_cid_value_some by done. simpl.
  case_bool_decide as Hreg; simpl; [done|].
  unfold set_connectionMap. rewrite delete_id by (by apply eq_None_not_Some).
  by destruct st.
Qed.

Lemma without_room_events_emits ev args (l : list socket) :
  ev = "room-list" ∨ ev = "room-event" →
  without_room_events ((λ p, (p, ev, args)) <$> l) = [].
Proof.
  intros Hev. unfold without_room_events.
  induction l as [|p l IH]; [done|]. simpl.
  rewrite filter_cons, decide_False; [done|]. simpl. intros [? ?]. by destruct Hev.
Qed.

Lemma without_room_events_evict st c :
  without_room_events (packets (trace_of (disconnectClient c st))) =
    packets (trace_of (disconnectClient c st)).
Proof.
  destruct (connectionMap st !! c) as [old|] eqn:Hc.
  - by rewrite (disconnectClient_some _ _ old).
  - by rewrite disconnectClient_none.
Qed.

(** X19: the rooms are an extension of the server without rooms.  On every
    state and input, the two authentication handlers leave the same directory
    and the same [cid] fields and send the same packets, the room events set
    aside; the two disconnect handlers leave the same directory and call the
    observer alike. *)
Theorem rooms_extend_plain st s result time_bj reason :
  connectionMap (state_of (onAuthentication s result time_bj st)) =
    connectionMap (state_of (Plain.onAuthentication s result st))
  ∧ socket_cid (state_of (onAuthentication s result time_bj st)) =
      socket_cid (state_of (Plain.onAuthentication s result st))
  ∧ without_room_events (packets (trace_of (onAuthentication s result time_bj st))) =
      packets (trace_of (Plain.onAuthentication s result st))
  ∧ connectionMap (state_of (onDisconnect s reason time_bj st)) =
      connectionMap (state_of (Plain.onDisconnect s reason st))
  ∧ socket_cid (state_of (onDisconnect s reason time_bj st)) =
      socket_cid (state_of (Plain.onDisconnect s reason st))
  ∧ observed (trace_of (onDisconnect s reason time_bj st)) =
      observed (trace_of (Plain.onDisconnect s reason st)).
Proof.
  split; [|split; [|split]].
  - destruct (truthy (error result)) eqn:Herr.
    + by rewrite onAuthentication_failure, plain_onAuthentication_failure.
    + rewrite onAuthentication_state, plain_onAuthentication_success by done.
      by destruct (registered_fields s (cid result) (or_else (room result) "default-room")
                     (state_of (disconnectClient (cid result) st))) as (-> & _).
  - destruct (truthy (error result)) eqn:Herr.
    + by rewrite onAuthentication_failure, plain_onAuthentication_failure.
    + rewrite onAuthentication_state, plain_onAuthentication_success by done.
      by destruct (registered_fields s (cid result) (or_else (room result) "default-room")
                     (state_of (disconnectClient (cid result) st))) as (_ & -> & _).
  - destruct (truthy (error result)) eqn:Herr.
    + by rewrite onAuthentication_failure, plain_onAuthentication_failure.
    + pose proof (onAuthentication_trace st s result time_bj Herr) as Htrace.
      simpl in Htrace. rewrite Htrace. clear Htrace.
      rewrite plain_onAuthentication_success by done. simpl.
      rewrite !packets_app.
      change (packets (?e :: ?t)) with (packets ([e] ++ t)).
      rewrite !packets_app, !packets_emits.
      unfold without_room_events at 1. rewrite !filter_app.
      fold (without_room_events (packets (trace_of (disconnectClient (cid result) st)))).
      rewrite without_room_events_evict. f_equal.
      match goal with
      | |- _ ++ filter _ (?l1) ++ filter _ (?l2) ++ _ = _ =>
          fold (without_room_events l1); fold (without_room_events l2)
      end.
      rewrite !without_room_events_emits by eauto. reflexivity.
  - destruct (truthy (cid_value (socket_cid st !! s))) eqn:Hc.
    + apply truthy_cid_value_true in Hc as (c & Hc & Hne).
      rewrite (onDisconnect_state _ _ _ _ c), (onDisconnect_trace _ _ _ _ c) by done.
      rewrite (plain_onDisconnect_cid _ _ _ c) by done. simpl.
      split; [done|]. split; [done|].
      unfold observed. rewrite omap_app.
      destruct (socket_room st !! s) as [r|]; [|done].
      destruct (negb (String.eqb r "")); [|done].
      destruct (roomMembers st !! r) as [members|]; [|done].
      fold (observed ((λ p, Emit p "room-event"
              [leaveMsg c (set_delete c members) time_bj]) <$>
                filter (λ p, p ≠ s) (sockets_in s r st))).
      by rewrite observed_emits.
    + rewrite onDisconnect_unauthenticated by done.
      unfold Plain.onDisconnect. unfold_m. simpl. by rewrite Hc.
Qed.

(** ** Further edge cases of the handshake *)

(** X20: a socket that authenticates again with the cid under which it is
    registered evicts itself: it is sent ['server-disconnect'] and closed,
    before anything else, and yet it is the connection of the cid afterward,
    so that messages to the cid are still emitted to it. *)
Theorem rehandshake_closes_and_keeps st s result time_bj :
  truthy (error result) = false →
  connectionMap st !! cid result = Some s →
  let r := onAuthentication s result time_bj st in
  (∃ rest, trace_of r = Emit s "server-disconnect" [] :: Close s :: rest)
  ∧ connectionMap (state_of r) !! cid result = Some s
  ∧ socket_cid (state_of r) !! s = Some (cid result)
  ∧ (∀ msg, send (VStr (cid result)) msg (state_of r) =
              (None, state_of r, [Emit s "owt-message" [msg]])).
Proof.
  intros Herr Hreg r. subst r.
  pose proof (onAuthentication_trace st s result time_bj Herr) as Htrace.
  simpl in Htrace. rewrite Htrace. clear Htrace.
  rewrite onAuthentication_state by done.
  destruct (registered_fields s (cid result) (or_else (room result) "default-room")
              (state_of (disconnectClient (cid result) st))) as (Hdir & Hcid & _).
  rewrite (disconnectClient_some _ _ s) in * by done.
  split; [by eexists|].
  assert (connectionMap (registered s (cid result) (or_else (room result) "default-room")
            (state_of ((), set_adapter (fmap (filter (λ r, r ≠ s)))
               (set_socket_cid (delete s) (set_connectionMap (delete (cid result)) st)),
               [Emit s "server-disconnect" []; Close s]))) !! cid result = Some s) as Hnew
    by (rewrite Hdir; apply lookup_insert_eq).
  split; [exact Hnew|]. split.
  - rewrite Hcid. apply lookup_insert_eq.
  - intros msg. unfold send. by apply emitChatEvent_some.
Qed.

Lemma rehandshake_closes_and_keeps_witness :
  truthy (error (accepted "alice" "r1")) = false
  ∧ connectionMap st_alice !! cid (accepted "alice" "r1") = Some alice_socket
  ∧ connectionMap (state_of (onAuthentication alice_socket (accepted "alice" "r1") "t2"
                               st_alice)) !! "alice" = Some alice_socket
  ∧ ∃ rest, trace_of (onAuthentication alice_socket (accepted "alice" "r1") "t2" st_alice) =
              Emit alice_socket "server-disconnect" [] :: Close alice_socket :: rest.
Proof.
  assert (truthy (error (accepted "alice" "r1")) = false) as Herr by reflexivity.
  assert (connectionMap st_alice !! cid (accepted "alice" "r1") = Some alice_socket) as Hreg
    by (vm_compute; reflexivity).
  split; [exact Herr|]. split; [exact Hreg|].
  destruct (rehandshake_closes_and_keeps st_alice alice_socket (accepted "alice" "r1") "t2"
              Herr Hreg) as (Htrace & Hdir & _).
  split; [exact Hdir|exact Htrace].
Defined.

(** X21: a cid is unreachable once it is unregistered: after the disconnect
    handler of a socket with a non-empty cid, and after an eviction by
    [server.disconnect], a message sent to the cid fails with the
    unreachable-endpoint error and nothing is emitted. *)
Theorem unreachable_after_disconnect st c msg :
  (∀ s reason time_bj, socket_cid st !! s = Some c → c ≠ "" →
     let st' := state_of (onDisconnect s reason time_bj st) in
     send (VStr c) msg st' = (Some unreachable, st', []))
  ∧ (let st' := state_of (disconnectClient c st) in
     send (VStr c) msg st' = (Some unreachable, st', [])).
Proof.
  split.
  - intros s reason time_bj Hc Hne st'. subst st'. unfold send.
    apply emitChatEvent_none. simpl.
    rewrite (onDisconnect_state _ _ _ _ c) by done. simpl. apply lookup_delete_eq.
  - intros st'. subst st'. unfold send. apply emitChatEvent_none. simpl.
    destruct (connectionMap st !! c) as [old|] eqn:Hold.
    + rewrite (disconnectClient_some _ _ old) by done. simpl. apply lookup_delete_eq.
    + by rewrite disconnectClient_none.
Qed.

Lemma unreachable_after_disconnect_witness :
  socket_cid st_alice_bob !! bob_socket = Some "bob" ∧ "bob" ≠ ""
  ∧ result_of (send (VStr "bob") (VStr "hi") st_alice_bob) = None
  ∧ result_of (send (VStr "bob") (VStr "hi")
                 (state_of (onDisconnect bob_socket "transport close" "t3" st_alice_bob))) =
      Some unreachable.
Proof.
  assert (socket_cid st_alice_bob !! bob_socket = Some "bob") as Hc
    by (vm_compute; reflexivity).
  assert ("bob" ≠ "") as Hne by discriminate.
  split; [exact Hc|]. split; [exact Hne|]. split; [vm_compute; reflexivity|].
  destruct (unreachable_after_disconnect st_alice_bob "bob" (VStr "hi")) as [Hlost _].
  by rewrite (Hlost bob_socket "transport close" "t3" Hc Hne).
Defined.

(** X22: a handshake with a cid that is already a member of its room, as
    after an eviction, leaves the registry as it is: the cid is not listed
    twice. *)
Theorem rejoin_keeps_members st s result time_bj :
  truthy (error result) = false →
  cid result ∈ default [] (roomMembers st !! or_else (room result) "default-room") →
  roomMembers (state_of (onAuthentication s result time_bj st)) = roomMembers st.
Proof.
  intros Herr Hin. rewrite onAuthentication_state by done.
  unfold registered. simpl. rewrite disconnectClient_roomMembers.
  destruct (roomMembers st !! or_else (room result) "default-room") as [members|] eqn:Hroom;
    [|by apply elem_of_nil in Hin].
  simpl in *. unfold set_add. rewrite decide_True by done. by apply insert_id.
Qed.

(** Alice is evicted by the owner and signs in again: the room lists her
    once. *)
Lemma rejoin_keeps_members_witness :
  truthy (error (accepted "alice" "r1")) = false
  ∧ ("alice" ∈ default [] (roomMembers (state_of (run alice_evicted init))
                              !! or_else (room (accepted "alice" "r1")) "default-room"))
  ∧ roomMembers (state_of (onAuthentication bob_socket (accepted "alice" "r1") "t3"
                             (state_of (run alice_evicted init)))) !! "r1" = Some ["alice"].
Proof.
  assert (truthy (error (accepted "alice" "r1")) = false) as Herr by reflexivity.
  assert ("alice" ∈ default [] (roomMembers (state_of (run alice_evicted init))
                                  !! or_else (room (accepted "alice" "r1")) "default-room"))
    as Hin.
  { assert (default [] (roomMembers (state_of (run alice_evicted init))
              !! or_else (room (accepted "alice" "r1")) "default-room") = ["alice"]) as ->
      by (vm_compute; reflexivity).
    by left. }
  split; [exact Herr|]. split; [exact Hin|].
  rewrite (rejoin_keeps_members _ bob_socket (accepted "alice" "r1") "t3" Herr Hin).
  vm_compute. reflexivity.
Defined.
